(** * hgfind: gene name to hg38 coordinates

    A shallow embedding of [src/hgfind/hgfind.py] and the properties of its
    table ingestion ([file_to_dicts]), of the [Chromosome] value type and of
    the lookup ([hgfind]).

    Conventions of the embedding:
    - Python [str] is [string]; the text is taken to be ASCII, so [upper]
      touches the letters a-z only and keeps the length of a string; the
      Unicode case mapping beyond ASCII is not covered.
    - Python [int] is [Z].
    - a Python [dict] is a [gmap]; no function here depends on the order of
      the items.
    - a raised exception is the [Raise] case of [result]. *)

From Stdlib Require Import ZArith Ascii String List Lia.
From stdpp Require Import base option list strings pretty gmap fin_maps.

Local Open Scope Z_scope.

(** ** Exceptions *)

Inductive exn : Type :=
  | ValueError
  | IndexError
  | TypeError
  | WrongGeneName (message gene : string).

Inductive result (A : Type) : Type :=
  | Ok (a : A)
  | Raise (e : exn).
Arguments Ok {A} a.
Arguments Raise {A} e.

(** Sequencing: the first exception raised ends the computation. *)
#[global] Instance result_bind : MBind result := λ A B k r,
  match r with
  | Ok a => k a
  | Raise e => Raise e
  end.
#[global] Instance result_ret : MRet result := λ A a, Ok a.

(** ** The string primitives of Python that the module uses *)

Module Py.

Definition tab : ascii := ascii_of_nat 9.

(** [c.isspace()] on the Latin-1 range. *)
Definition isspace (c : ascii) : bool :=
  let n := nat_of_ascii c in
  (((9 <=? n) && (n <=? 13)) || ((28 <=? n) && (n <=? 32))
   || (n =? 133) || (n =? 160))%nat.

(** [c.isdigit()] on ASCII. *)
Definition isdigit (c : ascii) : bool :=
  let n := nat_of_ascii c in ((48 <=? n) && (n <=? 57))%nat.

Definition upper_char (c : ascii) : ascii :=
  let n := nat_of_ascii c in
  if ((97 <=? n) && (n <=? 122))%nat then ascii_of_nat (n - 32) else c.

(** [s.upper()] *)
Fixpoint upper (s : string) : string :=
  match s with
  | EmptyString => EmptyString
  | String c s' => String (upper_char c) (upper s')
  end.

(** [len(s)] *)
Definition len (s : string) : Z := Z.of_nat (String.length s).

Fixpoint drop (n : nat) (s : string) : string :=
  match n, s with
  | O, _ => s
  | S _, EmptyString => EmptyString
  | S n', String _ s' => drop n' s'
  end.

Fixpoint take (n : nat) (s : string) : string :=
  match n, s with
  | O, _ => EmptyString
  | S _, EmptyString => EmptyString
  | S n', String c s' => String c (take n' s')
  end.

(** [s[i:j]] for [0 <= i] and [0 <= j]. *)
Definition slice (s : string) (i j : Z) : string :=
  take (Z.to_nat (j - i)) (drop (Z.to_nat i) s).

(** [s[i:]] for [0 <= i]. *)
Definition slice_from (s : string) (i : Z) : string := drop (Z.to_nat i) s.

(** [s[i]] for [0 <= i]: a one-character string, or [IndexError]. *)
Definition item (s : string) (i : Z) : result string :=
  match String.get (Z.to_nat i) s with
  | Some c => Ok (String c EmptyString)
  | None => Raise IndexError
  end.

Fixpoint startswith (p s : string) : bool :=
  match p, s with
  | EmptyString, _ => true
  | String _ _, EmptyString => false
  | String a p', String b s' => Ascii.eqb a b && startswith p' s'
  end.

Fixpoint find_from (sub s : string) (i : Z) : Z :=
  if startswith sub s then i
  else match s with
       | EmptyString => -1
       | String _ s' => find_from sub s' (i + 1)
       end.

(** [s.find(sub)]: the least index at which [sub] occurs, or [-1]. *)
Definition find (s sub : string) : Z := find_from sub s 0.

(** [sub in s] *)
Definition contains (sub s : string) : bool := negb (find s sub =? -1).

(** [s.isdigit()] for the one-character strings it is applied to. *)
Definition str_isdigit (s : string) : bool :=
  match s with
  | String c EmptyString => isdigit c
  | _ => false
  end.

Fixpoint lstrip (s : string) : string :=
  match s with
  | EmptyString => EmptyString
  | String c s' => if isspace c then lstrip s' else s
  end.

Fixpoint rstrip (s : string) : string :=
  match s with
  | EmptyString => EmptyString
  | String c s' =>
      match rstrip s' with
      | EmptyString => if isspace c then EmptyString else String c EmptyString
      | r => String c r
      end
  end.

(** [s.strip()] *)
Definition strip (s : string) : string := rstrip (lstrip s).

(** [s.split("\t")] *)
Fixpoint split_tab (s : string) : list string :=
  match s with
  | EmptyString => [EmptyString]
  | String c s' =>
      if Ascii.eqb c tab then EmptyString :: split_tab s'
      else match split_tab s' with
           | h :: t => String c h :: t
           | [] => [String c EmptyString]
           end
  end.

Definition digit_value (c : ascii) : Z := Z.of_nat (nat_of_ascii c) - 48.

(** The digits of a decimal literal: one or more digits, single
    underscores allowed between two digits. *)
Fixpoint digits (after_digit : bool) (acc : Z) (s : string) : option Z :=
  match s with
  | EmptyString => if after_digit then Some acc else None
  | String c s' =>
      if isdigit c then digits true (10 * acc + digit_value c) s'
      else if Ascii.eqb c "_" && after_digit then digits false acc s'
      else None
  end.

(** The white space that [int()] skips around a literal: tab, line feed,
    vertical tab, form feed, carriage return and space, and, beyond ASCII,
    the next-line and no-break-space characters, which the conversion turns
    into spaces first. The separators 28 to 31, which [strip] removes, are
    not skipped. *)
Definition int_isspace (c : ascii) : bool :=
  let n := nat_of_ascii c in
  (((9 <=? n) && (n <=? 13)) || (n =? 32) || (n =? 133) || (n =? 160))%nat.

Fixpoint int_lstrip (s : string) : string :=
  match s with
  | EmptyString => EmptyString
  | String c s' => if int_isspace c then int_lstrip s' else s
  end.

Fixpoint int_rstrip (s : string) : string :=
  match s with
  | EmptyString => EmptyString
  | String c s' =>
      match int_rstrip s' with
      | EmptyString =>
          if int_isspace c then EmptyString else String c EmptyString
      | r => String c r
      end
  end.

Fixpoint digit_count (s : string) : Z :=
  match s with
  | EmptyString => 0
  | String c s' => (if isdigit c then 1 else 0) + digit_count s'
  end.

(** The default limit of CPython 3.11 and later on the digits of a
    literal. *)
Definition max_str_digits : Z := 4300.

(** [int(s)] for a string: surrounding whitespace, an optional sign, a
    decimal literal of at most [max_str_digits] digits; [ValueError]
    otherwise. *)
Definition int (s : string) : result Z :=
  let body := int_rstrip (int_lstrip s) in
  let '(sign, ds) :=
    match body with
    | String c s' =>
        if Ascii.eqb c "-" then (-1, s')
        else if Ascii.eqb c "+" then (1, s')
        else (1, body)
    | EmptyString => (1, body)
    end in
  if max_str_digits <? digit_count ds then Raise ValueError
  else
    match digits false 0 ds with
    | Some n => Ok (sign * n)
    | None => Raise ValueError
    end.

(** [str(n)] for an integer. *)
Definition str (n : Z) : string := pretty n.

End Py.

(** ** class Chromosome *)

Record Chromosome : Type := { chr_n : Z }.

(** What Python code can pass where an [int], a [str] or a [Chromosome] is
    expected. A [bool], which Python also takes for an [int], is left out:
    [PInt] is an [int] that is not a [bool], and [Chromosome(True)] is not
    covered. *)
Inductive pyobj : Type :=
  | PInt (n : Z)
  | PStr (s : string)
  | PChr (c : Chromosome)
  | PNone.

(** [is_int(in_obj)] *)
Definition is_int (in_obj : string) : bool :=
  match Py.int in_obj with
  | Ok _ => true
  | Raise _ => false
  end.

Definition str_in (s : string) (l : list string) : bool :=
  existsb (String.eqb s) l.

(** [Chromosome.__init__] *)
Definition Chromosome_init (n : pyobj) : result Chromosome :=
  match n with
  | PInt n =>
      if (1 <=? n) && (n <=? 22) then Ok {| chr_n := n |}
      else Raise ValueError
  | PStr n =>
      if str_in (Py.upper n) ["X"; "Y"; "MT"; "M"]%string then
        if String.eqb (Py.upper n) "X" then Ok {| chr_n := 23 |}
        else if String.eqb (Py.upper n) "Y" then Ok {| chr_n := 24 |}
        else if String.eqb (Py.upper n) "MT" then Ok {| chr_n := 25 |}
        else Ok {| chr_n := 25 |}
      else if is_int n then
        match Py.int n with
        | Ok i => if (1 <=? i) && (i <=? 22) then Ok {| chr_n := i |}
                  else Raise ValueError
        | Raise e => Raise e
        end
      else Raise ValueError
  | _ => Raise ValueError
  end.

(** [Chromosome.__str__] *)
Definition Chromosome_str (self : Chromosome) : string :=
  if chr_n self <=? 22 then Py.str (chr_n self)
  else if chr_n self =? 23 then "X"%string
  else if chr_n self =? 24 then "Y"%string
  else "M"%string.

(** [Chromosome.__eq__] *)
Definition Chromosome_eq (self : Chromosome) (other : pyobj) : result bool :=
  match other with
  | PStr other => Ok (String.eqb (Chromosome_str self) other)
  | PInt other => Ok (chr_n self =? other)
  | PChr other => Ok (chr_n self =? chr_n other)
  | PNone => Raise TypeError
  end.

(** [self != other]: Python derives [__ne__] from [__eq__]. *)
Definition Chromosome_ne (self : Chromosome) (other : pyobj) : result bool :=
  b ← Chromosome_eq self other; Ok (negb b).

(** [Chromosome.__lt__], [__gt__], [__int__] *)
Definition Chromosome_lt (self other : Chromosome) : bool :=
  chr_n self <? chr_n other.
Definition Chromosome_gt (self other : Chromosome) : bool :=
  chr_n self >? chr_n other.
Definition Chromosome_int (self : Chromosome) : Z := chr_n self.

(** [a != b] between two [Chromosome] objects, where [__eq__] cannot raise. *)
Definition chr_differ (a b : Chromosome) : bool := negb (chr_n a =? chr_n b).


(** ** file_to_dicts *)

(** The local variables of one iteration of the row loop, once the line is
    split and its chromosome label, start and end are parsed. *)
Record GeneFact : Type := {
  start_coord : Z;
  end_coord : Z;
  gene_name : string;
  names : list string;
  chr_no : Chromosome
}.

(** The two dictionaries while the rows are read. *)
Record dicts : Type := {
  name_to_official : gmap string string;
  official_to_coord : gmap string (Chromosome * list Z * list Z)
}.

(** Lines 193-223: the chromosome of a label; [Ok None] is the final
    [else], where the row is skipped. *)
Definition chromosome_of_label (str_chr_no : string)
  : result (option Chromosome) :=
  if str_in str_chr_no ["X"; "Y"; "MT"]%string then
    c ← Chromosome_init (PStr str_chr_no); Ok (Some c)
  else if Py.len str_chr_no <=? 2 then
    i ← Py.int str_chr_no; c ← Chromosome_init (PInt i); Ok (Some c)
  else if Py.contains "HSCHR" (Py.upper str_chr_no) then
    let at_hschr := Py.find (Py.upper str_chr_no) "HSCHR" in
    let str_chr_no := Py.slice str_chr_no at_hschr (at_hschr + 7) in
    let str_chr_no := Py.slice_from str_chr_no 5 in
    second ← Py.item str_chr_no 1;
    if Py.str_isdigit second then
      i ← Py.int str_chr_no; c ← Chromosome_init (PInt i); Ok (Some c)
    else
      first ← Py.item str_chr_no 0;
      if String.eqb first "X" || String.eqb first "Y" then
        c ← Chromosome_init (PStr first); Ok (Some c)
      else if String.eqb str_chr_no "MT" then
        c ← Chromosome_init (PStr str_chr_no); Ok (Some c)
      else
        i ← Py.int first; c ← Chromosome_init (PInt i); Ok (Some c)
  else Ok None.

(** Lines 177-226: from a line to the row's variables. Unpacking anything
    but seven fields raises [ValueError]; a skipped row is [Ok None], and it
    is skipped before its coordinates are parsed. *)
Definition parse_line (line : string) : result (option GeneFact) :=
  match Py.strip <$> Py.split_tab line with
  | [start_coord; end_coord; gene_name; gene_syn_name; wiki_name;
     uniprot_name; str_chr_no] =>
      let names :=
        List.filter (λ name, negb (String.eqb name ""))
          [gene_name; gene_syn_name; wiki_name; uniprot_name] in
      chr ← chromosome_of_label str_chr_no;
      match chr with
      | None => Ok None
      | Some chr_no =>
          start_coord ← Py.int start_coord;
          end_coord ← Py.int end_coord;
          Ok (Some {| start_coord := start_coord; end_coord := end_coord;
                      gene_name := gene_name; names := names;
                      chr_no := chr_no |})
      end
  | _ => Raise ValueError
  end.

(** Lines 234-250: the body of [for name in names], on the pair of
    [name_to_official] and the running [official_name]. *)
Definition resolve_name
    (official_to_coord : gmap string (Chromosome * list Z * list Z))
    (chr_no : Chromosome)
    (st : gmap string string * string) (name : string)
  : gmap string string * string :=
  let '(name_to_official, official_name) := st in
  match name_to_official !! name with
  | Some official_name =>
      match official_to_coord !! official_name with
      | None => (name_to_official, official_name)
      | Some (prev_chr_no, _, _) =>
          if chr_differ prev_chr_no chr_no
          then (<[name := name]> name_to_official, name)
          else (name_to_official, official_name)
      end
  | None => (<[name := official_name]> name_to_official, official_name)
  end.

Arguments resolve_name : simpl never.

(** Lines 231-250. *)
Definition resolve_names (d : dicts) (f : GeneFact)
  : gmap string string * string :=
  let official_name :=
    default (gene_name f) (name_to_official d !! gene_name f) in
  fold_left (resolve_name (official_to_coord d) (chr_no f)) (names f)
    (name_to_official d, official_name).

(** Lines 252-271. With no entry the default [(-1, [], [])] is read, and
    [int(-1) != -1] is false. *)
Definition aggregate (f : GeneFact) (official_name : string)
    (official_to_coord : gmap string (Chromosome * list Z * list Z))
  : gmap string (Chromosome * list Z * list Z) :=
  match official_to_coord !! official_name with
  | Some (prev_chr_no, prev_start_coord, prev_end_coord) =>
      if negb (Chromosome_int prev_chr_no =? -1)
         && chr_differ prev_chr_no (chr_no f)
      then official_to_coord
      else <[official_name :=
               (chr_no f, prev_start_coord ++ [start_coord f],
                prev_end_coord ++ [end_coord f])]> official_to_coord
  | None =>
      <[official_name := (chr_no f, [start_coord f], [end_coord f])]>
        official_to_coord
  end.

Arguments aggregate : simpl never.

(** Lines 231-271: everything a parsed row does to the dictionaries. *)
Definition process_fact (d : dicts) (f : GeneFact) : dicts :=
  let '(name_to_official, official_name) := resolve_names d f in
  {| name_to_official := name_to_official;
     official_to_coord := aggregate f official_name (official_to_coord d) |}.

(** One iteration of [while line]. *)
Definition ingest_row (d : dicts) (line : string) : result dicts :=
  fact ← parse_line line;
  match fact with
  | None => Ok d
  | Some f => Ok (process_fact d f)
  end.

(** The loop [while line]: the list holds what the successive [readline]
    calls return; at the end of the file [readline] returns the empty
    string, which ends the loop. *)
Fixpoint read_rows (d : dicts) (bio_mart_file : list string) : result dicts :=
  match bio_mart_file with
  | [] => Ok d
  | line :: rest =>
      if String.eqb line "" then Ok d
      else d' ← ingest_row d line; read_rows d' rest
  end.

(** [min(l)] and [max(l)]: [ValueError] on the empty list. *)
Definition py_min (l : list Z) : result Z :=
  match l with
  | [] => Raise ValueError
  | x :: l' => Ok (fold_left Z.min l' x)
  end.

Definition py_max (l : list Z) : result Z :=
  match l with
  | [] => Raise ValueError
  | x :: l' => Ok (fold_left Z.max l' x)
  end.

(** Lines 280-285: the body of the final loop. *)
Definition collapse (coords : Chromosome * list Z * list Z)
  : result (Chromosome * Z * Z) :=
  let '(chr_no, start_coord_array, end_coord_array) := coords in
  start_coord ← py_min start_coord_array;
  end_coord ← py_max end_coord_array;
  Ok (chr_no, start_coord, end_coord).

Arguments collapse : simpl never.

(** Lines 279-285: every item is replaced by its collapsed form. *)
Definition finalize (official_to_coord : gmap string (Chromosome * list Z * list Z))
  : result (gmap string (Chromosome * Z * Z)) :=
  map_fold (λ official_name coords acc,
              m ← acc; v ← collapse coords; Ok (<[official_name := v]> m))
           (Ok ∅) official_to_coord.

Definition no_dicts : dicts :=
  {| name_to_official := ∅; official_to_coord := ∅ |}.

(** [file_to_dicts(path)], on the lines of the file at [path]; the first
    line is read and dropped. *)
Definition file_to_dicts (bio_mart_file : list string)
  : result (gmap string string * gmap string (Chromosome * Z * Z)) :=
  d ← read_rows no_dicts (tail bio_mart_file);
  official_to_coord ← finalize (official_to_coord d);
  Ok (name_to_official d, official_to_coord).

(** ** hgfind *)

Record rna_info : Type := {
  rna_chr_n : Chromosome;
  rna_start_coord : Z;
  rna_end_coord : Z;
  rna_official_name : string
}.

Definition not_recognized : string := "The input gene could not be recognized".

(** Lines 128-147: the lookup in the two finished dictionaries. *)
Definition lookup
    (dicts : gmap string string * gmap string (Chromosome * Z * Z))
    (gene : string) : result rna_info :=
  let '(name_to_official, official_to_coord) := dicts in
  let gene := Py.upper gene in
  match name_to_official !! gene with
  | Some official =>
      match official_to_coord !! official with
      | Some (chr_n, start_coord, end_coord) =>
          Ok {| rna_chr_n := chr_n; rna_start_coord := start_coord;
                rna_end_coord := end_coord; rna_official_name := official |}
      | None => Raise (WrongGeneName not_recognized gene)
      end
  | None => Raise (WrongGeneName not_recognized gene)
  end.

(** [hgfind(gene)]. [pickle] is what the cache file holds: [Some] of the
    dictionaries that [pickle.load] returns, [None] when there is no cache
    file or when the load raises one of the three exceptions that lines
    110-115 catch; the second component is the cache file after the call. A
    cache file on which the load raises anything else ([EOFError],
    [UnpicklingError]) is not covered: there the exception leaves
    [hgfind]. *)
Definition hgfind
    (pickle : option (gmap string string * gmap string (Chromosome * Z * Z)))
    (bio_mart_file : list string) (gene : string)
  : result rna_info
    * option (gmap string string * gmap string (Chromosome * Z * Z)) :=
  let loaded :=
    match pickle with
    | Some dicts => Ok dicts
    | None => file_to_dicts bio_mart_file
    end in
  match loaded with
  | Ok dicts => (lookup dicts gene, Some dicts)
  | Raise e => (Raise e, pickle)
  end.

(** ** main *)

(** How a run of the program ends: what it printed on stdout and its exit
    status, or an exception that nothing catches. *)
Inductive outcome : Type :=
  | Exited (stdout : string) (status : Z)
  | Uncaught (e : exn).

Definition line_feed : string := String (ascii_of_nat 10) EmptyString.

(** [main()], from the value of [args.gene] on: the lookup, the line that
    [print] writes and the exit status. Only [WrongGeneName] is caught. *)
Definition main
    (pickle : option (gmap string string * gmap string (Chromosome * Z * Z)))
    (bio_mart_file : list string) (gene : string)
  : outcome
    * option (gmap string string * gmap string (Chromosome * Z * Z)) :=
  let test_gene := gene in
  match hgfind pickle bio_mart_file test_gene with
  | (Ok result, pickle) =>
      let test_gene_name := rna_official_name result in
      let chr_n := rna_chr_n result in
      let start := rna_start_coord result in
      let end_ := rna_end_coord result in
      (Exited (test_gene_name +:+ " => " +:+ Chromosome_str chr_n +:+ ":"
               +:+ Py.str start +:+ "-" +:+ Py.str end_ +:+ line_feed) 0,
       pickle)
  | (Raise (WrongGeneName _ _), pickle) =>
      (Exited (test_gene +:+ " not recognized as a gene" +:+ line_feed) 1,
       pickle)
  | (Raise e, pickle) => (Uncaught e, pickle)
  end.

(** ** Tables for the examples *)

Definition newline : string := String (ascii_of_nat 10) EmptyString.

(** A line of the table from its fields. *)
Fixpoint tsv (fields : list string) : string :=
  match fields with
  | [] => newline
  | [x] => x +:+ newline
  | x :: rest => x +:+ String Py.tab (tsv rest)
  end.

Definition header : string :=
  tsv ["Gene start (bp)"; "Gene end (bp)"; "Gene name"; "Gene Synonym";
       "WikiGene name"; "UniProtKB Gene Name symbol";
       "Chromosome/scaffold name"]%string.

Definition hnrnpc_table : list string :=
  [ header;
    tsv ["21209136"; "21269494"; "HNRNPC"; "C1"; "HNRNPC"; "HNRNPC"; "14"];
    tsv ["82352498"; "82374503"; "HNRNPD"; "AUF1"; "HNRNPD"; "HNRNPD"; "4"];
    tsv ["21230000"; "21250000"; "HNRNPC"; "HNRPC"; ""; ""; "14"];
    tsv ["100"; "200"; "ALTGENE"; ""; ""; ""; "CHR_HSCHR14_3_CTG1"];
    tsv ["5"; "9"; "ODD"; ""; ""; ""; "KI270728.1"];
    tsv ["21229000"; "21240000"; "HNRNPC"; "SNRPC"; ""; ""; "14"]
  ]%string.

Definition auf1_row : string :=
  tsv ["82352498"; "82374503"; "HNRNPD"; "AUF1"; ""; ""; "4"]%string.

(** A later row that lists AUF1 on chromosome 7. *)
Definition auf1_conflict_row : string :=
  tsv ["7000"; "8000"; "GENE7"; "AUF1"; ""; ""; "7"]%string.

(** A later row for HNRNPD itself on chromosome 9. *)
Definition hnrnpd_conflict_row : string :=
  tsv ["1"; "2"; "HNRNPD"; ""; ""; ""; "9"]%string.


(** A known name that comes after new names of its row. *)
Definition late_known_table : list string :=
  [ header;
    tsv ["10"; "20"; "G1"; ""; ""; ""; "1"];
    tsv ["30"; "40"; "A"; "B"; "G1"; ""; "1"] ]%string.

(** After these rows C is its own canonical name and has no coordinates. *)
Definition bare_canonical_rows : list string :=
  [ tsv ["10"; "20"; "A"; "B"; ""; ""; "1"];
    tsv ["30"; "40"; "C"; "B"; ""; ""; "2"] ]%string.

(** A row after [bare_canonical_rows] that meets C after a new name. *)
Definition bare_canonical_next_row : string :=
  tsv ["50"; "60"; "D"; "C"; "E"; ""; "3"]%string.

Definition no_fact : GeneFact :=
  {| start_coord := 0; end_coord := 0; gene_name := "";
     names := []; chr_no := {| chr_n := 1 |} |}.

(** The fact of a line and the dictionaries after some rows, for examples
    on lines that parse. *)
Definition fact_of (line : string) : GeneFact :=
  match parse_line line with
  | Ok (Some f) => f
  | _ => no_fact
  end.

Definition dicts_after (rows : list string) : dicts :=
  match read_rows no_dicts rows with
  | Ok d => d
  | Raise _ => no_dicts
  end.

(** ** Vocabulary of the statements *)

(** The dictionaries as they are after some rows of some table. *)
Definition ingested (d : dicts) : Prop :=
  ∃ rows, read_rows no_dicts rows = Ok d.

Definition valid_chromosome (c : Chromosome) : Prop := 1 ≤ chr_n c ≤ 25.

(** The running [official_name] when the loop over the names starts. *)
Definition initial_guess (d : dicts) (f : GeneFact) : string :=
  default (gene_name f) (name_to_official d !! gene_name f).

(** The canonical name a fact resolves to. *)
Definition official_of (d : dicts) (f : GeneFact) : string :=
  (resolve_names d f).2.

(** A fact is recorded, not discarded, when its canonical name has no
    coordinates yet or has them on the chromosome of the fact. *)
Definition recorded (d : dicts) (f : GeneFact) : bool :=
  match official_to_coord d !! official_of d f with
  | Some (prev_chr_no, _, _) => chr_n prev_chr_no =? chr_n (chr_no f)
  | None => true
  end.

(** The facts, in table order, that are recorded under the canonical name
    [k] when [facts] are processed from the dictionaries [d]. *)
Fixpoint aggregated_under (k : string) (d : dicts) (facts : list GeneFact)
  : list GeneFact :=
  match facts with
  | [] => []
  | f :: facts' =>
      (if bool_decide (official_of d f = k) && recorded d f then [f] else [])
      ++ aggregated_under k (process_fact d f) facts'
  end.

(** The facts of the rows that the loop reads: up to the end of the file,
    without the skipped rows. *)
Fixpoint parse_rows (bio_mart_file : list string) : result (list GeneFact) :=
  match bio_mart_file with
  | [] => Ok []
  | line :: rest =>
      if String.eqb line "" then Ok []
      else
        fact ← parse_line line;
        facts ← parse_rows rest;
        Ok (match fact with Some f => f :: facts | None => facts end)
  end.

(** The finished dictionaries of a table and the facts of some rows, for
    examples on tables that are read without an exception. *)
Definition dicts_after_file (bio_mart_file : list string)
  : gmap string string * gmap string (Chromosome * Z * Z) :=
  match file_to_dicts bio_mart_file with
  | Ok dicts => dicts
  | Raise _ => (∅, ∅)
  end.

Definition facts_after (rows : list string) : list GeneFact :=
  match parse_rows rows with
  | Ok facts => facts
  | Raise _ => []
  end.

(** One more fact in a coordinate entry. *)
Definition add_fact (entry : option (Chromosome * list Z * list Z))
    (f : GeneFact) : option (Chromosome * list Z * list Z) :=
  match entry with
  | Some (_, starts, ends) =>
      Some (chr_no f, starts ++ [start_coord f], ends ++ [end_coord f])
  | None => Some (chr_no f, [start_coord f], [end_coord f])
  end.

Definition is_least (m : Z) (l : list Z) : Prop := m ∈ l ∧ ∀ x, x ∈ l → m ≤ x.
Definition is_greatest (m : Z) (l : list Z) : Prop := m ∈ l ∧ ∀ x, x ∈ l → x ≤ m.

(** A name that needs no further resolution: its own canonical name in the
    alias map, or the empty gene symbol of a row without one. *)
Definition self_canonical (name_to_official : gmap string string)
    (c : string) : Prop :=
  c = ""%string ∨ name_to_official !! c = Some c.

Definition alias_closed (name_to_official : gmap string string) : Prop :=
  ∀ n c, name_to_official !! n = Some c → self_canonical name_to_official c.

(** The stored chromosomes are chromosomes and no coordinate list is
    empty. *)
Definition coords_valid
    (official_to_coord : gmap string (Chromosome * list Z * list Z)) : Prop :=
  ∀ k c starts ends,
    official_to_coord !! k = Some (c, starts, ends) →
    valid_chromosome c ∧ starts ≠ [] ∧ ends ≠ [].

(** A fact as [parse_line] makes it: the gene symbol, when there is one, is
    the first name. *)
Definition fact_wf (f : GeneFact) : Prop :=
  valid_chromosome (chr_no f)
  ∧ (gene_name f = ""%string ∨ head (names f) = Some (gene_name f)).

(** What holds of the dictionaries between two rows. *)
Definition dicts_inv (d : dicts) : Prop :=
  coords_valid (official_to_coord d)
  ∧ alias_closed (name_to_official d)
  ∧ ∀ k, is_Some (official_to_coord d !! k) →
         self_canonical (name_to_official d) k.

(** ** Strings *)

Section strings.

Lemma upper_char_idemp c : Py.upper_char (Py.upper_char c) = Py.upper_char c.
Proof. destruct c as [[] [] [] [] [] [] [] []]; reflexivity. Qed.

Lemma upper_idemp s : Py.upper (Py.upper s) = Py.upper s.
Proof.
  induction s as [|c s IH]; simpl; [done|].
  by rewrite upper_char_idemp, IH.
Qed.

Lemma length_drop n s : String.length (Py.drop n s) = (String.length s - n)%nat.
Proof.
  revert s; induction n as [|n IH]; intros [|c s]; simpl; try lia.
  apply IH.
Qed.

Lemma length_take n s :
  String.length (Py.take n s) = (n `min` String.length s)%nat.
Proof.
  revert s; induction n as [|n IH]; intros [|c s]; simpl; try lia.
  by rewrite IH.
Qed.

Lemma get_beyond n s : (String.length s ≤ n)%nat → String.get n s = None.
Proof.
  revert n; induction s as [|c s IH]; intros [|n] H; simpl in *;
    try done; try lia.
  apply IH; lia.
Qed.

Lemma item_beyond s i :
  0 ≤ i → Py.len s ≤ i → Py.item s i = Raise IndexError.
Proof.
  intros Hi Hlen. unfold Py.item, Py.len in *.
  rewrite get_beyond; [done|lia].
Qed.

Lemma find_from_range sub s i :
  Py.find_from sub s i = -1
  ∨ i ≤ Py.find_from sub s i ≤ i + Z.of_nat (String.length s).
Proof.
  revert i; induction s as [|c s IH]; intros i; simpl.
  - destruct (Py.startswith sub EmptyString); [right; lia|by left].
  - destruct (Py.startswith sub (String c s)); [right; lia|].
    destruct (IH (i + 1)) as [->|?]; [by left|right; lia].
Qed.

Lemma contains_find sub s :
  Py.contains sub s = true → 0 ≤ Py.find s sub ≤ Py.len s.
Proof.
  unfold Py.contains, Py.find, Py.len. intros H.
  destruct (find_from_range sub s 0) as [E|?]; [|lia].
  rewrite E in H. done.
Qed.

Lemma str_in_spec s l : str_in s l = true ↔ s ∈ l.
Proof.
  unfold str_in. rewrite existsb_exists. split.
  - intros (x & Hx & E). apply String.eqb_eq in E as ->.
    by apply list_elem_of_In.
  - intros H. exists s. split; [by apply list_elem_of_In|].
    apply String.eqb_refl.
Qed.

End strings.

(** ** Lookup *)

(** C8. Lookup is case-insensitive: a query and its upper-case form give the
    same outcome, the same record on success and the same exception on
    failure, on the finished dictionaries and through the cache logic. *)
Theorem lookup_case_insensitive :
  (∀ dicts gene, lookup dicts gene = lookup dicts (Py.upper gene))
  ∧ (∀ pickle bio_mart_file gene,
       hgfind pickle bio_mart_file gene
       = hgfind pickle bio_mart_file (Py.upper gene)).
Proof.
  assert (∀ dicts gene, lookup dicts gene = lookup dicts (Py.upper gene))
    as Hlookup.
  { intros [n2o o2c] gene. unfold lookup. by rewrite upper_idemp. }
  split; [done|].
  intros pickle file gene. unfold hgfind.
  destruct pickle as [d|]; [by rewrite <- Hlookup|].
  destruct (file_to_dicts file); [by rewrite <- Hlookup|done].
Qed.

(** C7, as the code has it. The lookup raises [WrongGeneName] exactly when
    the upper-cased query is no key of the alias map or its canonical name
    is no key of the finished coordinate map; the exception carries the
    upper-cased query; in every other case the lookup returns the entry of
    the canonical name. *)
Theorem lookup_fails_iff :
  ∀ (name_to_official : gmap string string)
    (official_to_coord : gmap string (Chromosome * Z * Z)) (gene : string),
    let missing :=
      name_to_official !! Py.upper gene = None
      ∨ ∃ official, name_to_official !! Py.upper gene = Some official
                    ∧ official_to_coord !! official = None in
    ((∃ message g,
        lookup (name_to_official, official_to_coord) gene
        = Raise (WrongGeneName message g)) ↔ missing)
    ∧ (missing →
       lookup (name_to_official, official_to_coord) gene
       = Raise (WrongGeneName not_recognized (Py.upper gene)))
    ∧ (∀ official chr_n start_coord end_coord,
         name_to_official !! Py.upper gene = Some official →
         official_to_coord !! official = Some (chr_n, start_coord, end_coord) →
         lookup (name_to_official, official_to_coord) gene
         = Ok {| rna_chr_n := chr_n; rna_start_coord := start_coord;
                 rna_end_coord := end_coord; rna_official_name := official |}).
Proof.
  intros n2o o2c gene missing. unfold lookup. subst missing.
  destruct (n2o !! Py.upper gene) as [official|] eqn:Hn.
  - destruct (o2c !! official) as [[[c s] e]|] eqn:Ho.
    + split; [split|split].
      * intros (m & g & H). done.
      * intros [?|(o & [= <-] & H)]; congruence.
      * intros [?|(o & [= <-] & H)]; congruence.
      * intros o c' s' e' [= <-] H. by simplify_eq.
    + split; [split|split]; eauto.
      intros o c' s' e' [= <-] H. congruence.
  - split; [split|split]; eauto. intros ? ? ? ? [=].
Qed.

(** C7, the query of the failure: the exception raised for ["gsjfg"]
    carries ["GSJFG"], not the string the caller gave. *)
Lemma failure_carries_uppercased_query :
  ¬ (∀ dicts gene message g,
       lookup dicts gene = Raise (WrongGeneName message g) → g = gene).
Proof.
  intros H.
  specialize (H (∅, ∅) "gsjfg"%string not_recognized "GSJFG"%string eq_refl).
  discriminate H.
Qed.

(** ** Chromosome *)

Lemma Chromosome_init_valid v c :
  Chromosome_init v = Ok c → 1 ≤ chr_n c ≤ 25.
Proof.
  destruct v as [n|s| |]; unfold Chromosome_init; try done.
  - destruct ((1 <=? n) && (n <=? 22)) eqn:E; intros [= <-]; simpl; lia.
  - destruct (str_in _ _).
    + repeat case_match; intros [= <-]; simpl; lia.
    + destruct (is_int s); [|done].
      destruct (Py.int s) as [i|]; [|done].
      destruct ((1 <=? i) && (i <=? 22)) eqn:E; intros [= <-]; simpl; lia.
Qed.

(** C9, as the code has it. A constructed chromosome compares equal to its
    integer rank (1..22, X = 23, Y = 24, M = 25) and to its canonical
    string; it compares equal to the raw value it was built from when that
    value is an integer, and, for a string, exactly when the string is the
    canonical form: ["X"], ["Y"], ["M"] or the decimal numeral. *)
Theorem chromosome_eq_raw (v : pyobj) (c : Chromosome) :
  Chromosome_init v = Ok c →
  Chromosome_eq c (PInt (chr_n c)) = Ok true
  ∧ Chromosome_eq c (PStr (Chromosome_str c)) = Ok true
  ∧ match v with
    | PInt n =>
        1 ≤ n ≤ 22 ∧ Chromosome_eq c v = Ok true
        ∧ Chromosome_eq c (PStr (Py.str n)) = Ok true
    | PStr s =>
        (Chromosome_eq c v = Ok true ↔ s = Chromosome_str c)
        ∧ (Py.upper s = "X"%string →
           chr_n c = 23 ∧ Chromosome_str c = "X"%string)
        ∧ (Py.upper s = "Y"%string →
           chr_n c = 24 ∧ Chromosome_str c = "Y"%string)
        ∧ (Py.upper s = "MT"%string ∨ Py.upper s = "M"%string →
           chr_n c = 25 ∧ Chromosome_str c = "M"%string)
        ∧ (Py.upper s ∉ ["X"; "Y"; "MT"; "M"]%string →
           ∃ i, Py.int s = Ok i ∧ 1 ≤ i ≤ 22 ∧ chr_n c = i
                ∧ Chromosome_str c = Py.str i)
    | _ => False
    end.
Proof.
  intros Hinit.
  split; [simpl; by rewrite Z.eqb_refl|].
  split; [simpl; by rewrite String.eqb_refl|].
  destruct v as [n|s| |]; unfold Chromosome_init, Chromosome_eq in *;
    try done.
  - destruct ((1 <=? n) && (n <=? 22)) eqn:E; [|done].
    injection Hinit as <-. simpl.
    rewrite Z.eqb_refl. unfold Chromosome_str. simpl.
    assert ((n <=? 22) = true) as -> by lia.
    rewrite String.eqb_refl. repeat split; lia.
  - split.
    { rewrite String.eqb_sym. split.
      - intros [= E]. by apply String.eqb_eq in E.
      - intros ->. by rewrite String.eqb_refl. }
    destruct (str_in (Py.upper s) _) eqn:Hin.
    + destruct (String.eqb (Py.upper s) "X") eqn:EX.
      { apply String.eqb_eq in EX. injection Hinit as <-.
        rewrite EX. split; [done|]. split; [done|].
        split; [by intros [|]|].
        intros Hn. exfalso. apply Hn. set_solver. }
      destruct (String.eqb (Py.upper s) "Y") eqn:EY.
      { apply String.eqb_eq in EY. injection Hinit as <-.
        rewrite EY. split; [done|]. split; [done|].
        split; [by intros [|]|].
        intros Hn. exfalso. apply Hn. set_solver. }
      apply String.eqb_neq in EX, EY.
      assert (c = {| chr_n := 25 |}) as ->.
      { destruct (String.eqb (Py.upper s) "MT"); by injection Hinit. }
      split; [done|]. split; [done|]. split; [done|].
      intros Hn. exfalso. apply Hn. by apply str_in_spec.
    + assert (Py.upper s ∉ ["X"; "Y"; "MT"; "M"]%string) as Hnin.
      { intros H%str_in_spec. congruence. }
      destruct (is_int s); [|done].
      destruct (Py.int s) as [i|]; [|done].
      destruct ((1 <=? i) && (i <=? 22)) eqn:E; [|done].
      injection Hinit as <-.
      split; [intros E'; exfalso; apply Hnin; rewrite E'; set_solver|].
      split; [intros E'; exfalso; apply Hnin; rewrite E'; set_solver|].
      split; [intros [E'|E']; exfalso; apply Hnin; rewrite E'; set_solver|].
      intros _. exists i. unfold Chromosome_str. simpl.
      assert ((i <=? 22) = true) as -> by lia.
      repeat split; lia.
Qed.

Lemma chromosome_eq_raw_witness :
  Chromosome_eq {| chr_n := 23 |} (PInt 23) = Ok true
  ∧ Chromosome_eq {| chr_n := 23 |} (PStr "X") = Ok true.
Proof.
  destruct (chromosome_eq_raw (PStr "X") {| chr_n := 23 |} eq_refl)
    as (H1 & H2 & _).
  split; [exact H1|exact H2].
Defined.

(** C9, the spelling ["MT"]: the constructor accepts it and the chromosome
    built from it does not compare equal to it. *)
Lemma chromosome_MT_differs_from_raw :
  ¬ (∀ v c, Chromosome_init v = Ok c → Chromosome_eq c v = Ok true).
Proof.
  intros H.
  specialize (H (PStr "MT") {| chr_n := 25 |} eq_refl).
  discriminate H.
Qed.

(** ** Rows that are skipped, rows that raise *)

Section labels.

Lemma long_label_not_symbol label :
  2 < Py.len label → str_in label ["X"; "Y"; "MT"]%string = false.
Proof.
  intros Hlen. destruct (str_in label _) eqn:E; [|done].
  apply str_in_spec in E. exfalso.
  repeat (apply elem_of_cons in E as [->|E]; [vm_compute in Hlen; done|]).
  by apply elem_of_nil in E.
Qed.

Lemma chromosome_of_label_unrecognized label :
  str_in label ["X"; "Y"; "MT"]%string = false →
  2 < Py.len label →
  Py.contains "HSCHR" (Py.upper label) = false →
  chromosome_of_label label = Ok None.
Proof.
  intros Hsym Hlen Hhs. unfold chromosome_of_label.
  rewrite Hsym, Hhs.
  by assert ((Py.len label <=? 2) = false) as -> by lia.
Qed.

Lemma chromosome_of_label_one_char label :
  2 < Py.len label →
  Py.contains "HSCHR" (Py.upper label) = true →
  Py.len label = Py.find (Py.upper label) "HSCHR" + 6 →
  chromosome_of_label label = Raise IndexError.
Proof.
  intros Hlen Hhs Hone. unfold chromosome_of_label.
  rewrite (long_label_not_symbol _ Hlen), Hhs.
  assert ((Py.len label <=? 2) = false) as -> by lia.
  pose proof (contains_find _ _ Hhs) as [Hlo _].
  set (i := Py.find (Py.upper label) "HSCHR") in *.
  rewrite (item_beyond _ 1); [reflexivity|lia|].
  unfold Py.len, Py.slice_from, Py.slice in *.
  rewrite length_drop, length_take, length_drop. lia.
Qed.

Lemma parse_line_fields line s e g syn w u label :
  Py.strip <$> Py.split_tab line = [s; e; g; syn; w; u; label] →
  parse_line line =
    chr ← chromosome_of_label label;
    match chr with
    | None => Ok None
    | Some chr_no =>
        start_coord ← Py.int s;
        end_coord ← Py.int e;
        Ok (Some {| start_coord := start_coord; end_coord := end_coord;
                    gene_name := g;
                    names := List.filter (λ name, negb (String.eqb name ""))
                               [g; syn; w; u];
                    chr_no := chr_no |})
    end.
Proof. intros H. unfold parse_line. by rewrite H. Qed.

Lemma read_rows_skip d before line after :
  (∀ d, ingest_row d line = Ok d) →
  read_rows d (before ++ line :: after) = read_rows d (before ++ after).
Proof.
  intros Hskip. revert d.
  induction before as [|l before IH]; intros d; simpl.
  - destruct (String.eqb line "") eqn:E.
    + apply String.eqb_eq in E as ->. by specialize (Hskip d).
    + by rewrite Hskip.
  - destruct (String.eqb l ""); [done|].
    destruct (ingest_row d l) as [d'|]; simpl; [apply IH|done].
Qed.

Lemma read_rows_app d before rest :
  Forall (λ l, l ≠ ""%string) before →
  read_rows d (before ++ rest) = d' ← read_rows d before; read_rows d' rest.
Proof.
  intros Hne. revert d.
  induction Hne as [|l before Hl _ IH]; intros d; simpl; [done|].
  apply String.eqb_neq in Hl as ->.
  destruct (ingest_row d l) as [d'|]; simpl; [apply IH|done].
Qed.

End labels.

(** C6, as the code has it. A row whose chromosome label is none of ["X"],
    ["Y"], ["MT"], is longer than two characters and holds no ["HSCHR"] is
    skipped: parsing
    the line raises nothing and yields no fact, the dictionaries are as
    before the row, and the table gives the same dictionaries, hence the
    same lookups, as the table without the row. *)
Theorem unrecognized_label_row_skipped
    (line s e g syn w u label : string) :
  Py.strip <$> Py.split_tab line = [s; e; g; syn; w; u; label] →
  str_in label ["X"; "Y"; "MT"]%string = false →
  2 < Py.len label →
  Py.contains "HSCHR" (Py.upper label) = false →
  parse_line line = Ok None
  ∧ (∀ d, ingest_row d line = Ok d)
  ∧ (∀ hdr before after,
       file_to_dicts (hdr :: before ++ line :: after)
       = file_to_dicts (hdr :: before ++ after))
  ∧ (∀ hdr before after gene,
       hgfind None (hdr :: before ++ line :: after) gene
       = hgfind None (hdr :: before ++ after) gene).
Proof.
  intros Hfields Hsym Hlen Hhs.
  assert (parse_line line = Ok None) as Hparse.
  { rewrite (parse_line_fields _ _ _ _ _ _ _ _ Hfields).
    by rewrite chromosome_of_label_unrecognized. }
  assert (∀ d, ingest_row d line = Ok d) as Hrow.
  { intros d. unfold ingest_row. by rewrite Hparse. }
  assert (∀ hdr before after,
            file_to_dicts (hdr :: before ++ line :: after)
            = file_to_dicts (hdr :: before ++ after)) as Hfile.
  { intros hdr before after. unfold file_to_dicts. simpl.
    by rewrite read_rows_skip. }
  repeat split; try done.
  intros hdr before after gene. unfold hgfind. by rewrite Hfile.
Qed.

Lemma unrecognized_label_row_skipped_witness :
  parse_line (tsv ["5"; "9"; "ODD"; ""; ""; ""; "KI270728.1"]%string) = Ok None.
Proof.
  apply (unrecognized_label_row_skipped
           (tsv ["5"; "9"; "ODD"; ""; ""; ""; "KI270728.1"]%string)
           "5" "9" "ODD" "" "" "" "KI270728.1");
    [reflexivity | reflexivity | vm_compute; reflexivity | reflexivity].
Defined.

(** C6, the short label: the label ZZ is none of X, Y and MT, is no
    integer in 1..22 and holds no HSCHR, and its row is not skipped but
    raises [ValueError]. *)
Lemma short_unrecognized_label_not_skipped :
  ¬ (∀ line s e g syn w u label,
       Py.strip <$> Py.split_tab line = [s; e; g; syn; w; u; label] →
       str_in label ["X"; "Y"; "MT"]%string = false →
       ¬ (Py.len label ≤ 2 ∧ ∃ i, Py.int label = Ok i ∧ 1 ≤ i ≤ 22) →
       Py.contains "HSCHR" (Py.upper label) = false →
       parse_line line = Ok None).
Proof.
  intros H.
  specialize (H (tsv ["5"; "9"; "ODD"; ""; ""; ""; "ZZ"]%string)
                "5" "9" "ODD" "" "" "" "ZZ"
                eq_refl eq_refl)%string.
  assert (parse_line (tsv ["5"; "9"; "ODD"; ""; ""; ""; "ZZ"]%string)
          = Raise ValueError) as E by reflexivity.
  rewrite E in H. discriminate H; [|reflexivity].
  intros [_ (i & Hi & _)]. vm_compute in Hi. discriminate Hi.
Qed.

(** A label of at most two characters is taken for a chromosome number:
    when it is not one, the row raises and is not skipped. *)
Lemma short_label_raises :
  parse_line (tsv ["5"; "9"; "ODD"; ""; ""; ""; "ZZ"]%string) = Raise ValueError
  ∧ parse_line (tsv ["5"; "9"; "ODD"; ""; ""; ""; "23"]%string)
    = Raise ValueError.
Proof. split; reflexivity. Qed.

(** C10. A row whose label is longer than two characters, holds ["HSCHR"]
    (in any case) and has exactly one character after its first occurrence
    makes the extraction read the second character of a one-character
    remainder: parsing the line raises [IndexError], and so do the row, the
    ingestion of a table that reaches the row, and the lookup that triggers
    that ingestion. The row is not skipped. *)
Theorem hschr_one_char_index_error
    (line s e g syn w u label : string) :
  Py.strip <$> Py.split_tab line = [s; e; g; syn; w; u; label] →
  2 < Py.len label →
  Py.contains "HSCHR" (Py.upper label) = true →
  Py.len label = Py.find (Py.upper label) "HSCHR" + 6 →
  parse_line line = Raise IndexError
  ∧ (∀ d, ingest_row d line = Raise IndexError)
  ∧ (∀ hdr before after d gene,
       Forall (λ l, l ≠ ""%string) before →
       read_rows no_dicts before = Ok d →
       file_to_dicts (hdr :: before ++ line :: after) = Raise IndexError
       ∧ hgfind None (hdr :: before ++ line :: after) gene
         = (Raise IndexError, None)).
Proof.
  intros Hfields Hlen Hhs Hone.
  assert (parse_line line = Raise IndexError) as Hparse.
  { rewrite (parse_line_fields _ _ _ _ _ _ _ _ Hfields).
    by rewrite chromosome_of_label_one_char. }
  assert (∀ d, ingest_row d line = Raise IndexError) as Hrow.
  { intros d. unfold ingest_row. by rewrite Hparse. }
  split; [done|]. split; [done|].
  intros hdr before after d gene Hne Hbefore. split.
  - unfold file_to_dicts. simpl. rewrite read_rows_app by done.
    rewrite Hbefore. simpl. rewrite Hrow.
    destruct (String.eqb line "") eqn:E; [|done].
    apply String.eqb_eq in E as ->. by vm_compute in Hparse.
  - unfold hgfind, file_to_dicts. simpl. rewrite read_rows_app by done.
    rewrite Hbefore. simpl. rewrite Hrow.
    destruct (String.eqb line "") eqn:E; [|done].
    apply String.eqb_eq in E as ->. by vm_compute in Hparse.
Qed.

Lemma hschr_one_char_index_error_witness :
  file_to_dicts
    [header;
     tsv ["21209136"; "21269494"; "HNRNPC"; ""; ""; ""; "14"]%string;
     tsv ["100"; "200"; "PATCHED"; ""; ""; ""; "CHR_HSCHR9"]%string]
  = Raise IndexError.
Proof.
  refine (proj1 (proj2 (proj2 (hschr_one_char_index_error
           (tsv ["100"; "200"; "PATCHED"; ""; ""; ""; "CHR_HSCHR9"]%string)
           "100" "200" "PATCHED" "" "" "" "CHR_HSCHR9" _ _ _ _))
           header
           [tsv ["21209136"; "21269494"; "HNRNPC"; ""; ""; ""; "14"]%string]
           [] _ ""%string _ eq_refl));
    [reflexivity | vm_compute; reflexivity | reflexivity | reflexivity
    | repeat constructor; discriminate ].
Defined.

(** ** The loop over the names of a row *)

Section resolve.

Context (o2c : gmap string (Chromosome * list Z * list Z)).
Context (chr : Chromosome).

Lemma resolve_name_new (n2o : gmap string string) off name :
  n2o !! name = None →
  resolve_name o2c chr (n2o, off) name = (<[name := off]> n2o, off).
Proof. intros H. unfold resolve_name. by rewrite H. Qed.

Lemma resolve_name_bare (n2o : gmap string string) off name c :
  n2o !! name = Some c → o2c !! c = None →
  resolve_name o2c chr (n2o, off) name = (n2o, c).
Proof. intros H1 H2. unfold resolve_name. by rewrite H1, H2. Qed.

Lemma resolve_name_same (n2o : gmap string string) off name c prev ss es :
  n2o !! name = Some c → o2c !! c = Some (prev, ss, es) →
  chr_n prev = chr_n chr →
  resolve_name o2c chr (n2o, off) name = (n2o, c).
Proof.
  intros H1 H2 H3. unfold resolve_name, chr_differ.
  by rewrite H1, H2, H3, Z.eqb_refl.
Qed.


Lemma self_canonical_insert (n2o : gmap string string) k v c :
  self_canonical n2o c → (k = c → v = c) →
  self_canonical (<[k := v]> n2o) c.
Proof.
  intros [->|Hc] Hk; [by left|right].
  destruct (decide (k = c)) as [->|Hne].
  - rewrite Hk by done. apply lookup_insert_eq.
  - by rewrite lookup_insert_ne.
Qed.

Lemma alias_closed_insert (n2o : gmap string string) k v :
  alias_closed n2o →
  self_canonical (<[k := v]> n2o) v →
  (n2o !! k = Some k → v = k) →
  alias_closed (<[k := v]> n2o).
Proof.
  intros Hclosed Hv Hk n c.
  destruct (decide (k = n)) as [->|Hne].
  - rewrite lookup_insert_eq. by intros [= <-].
  - rewrite lookup_insert_ne by done. intros Hn.
    destruct (Hclosed _ _ Hn) as [->|Hc]; [by left|].
    apply self_canonical_insert; [by right|].
    intros ->. by apply Hk.
Qed.

(** One name: the alias map stays closed and the running name becomes
    self-canonical, also when it is the gene symbol that is about to be
    entered. *)
Lemma resolve_name_closed (n2o : gmap string string) off name :
  alias_closed n2o →
  self_canonical n2o off ∨ (n2o !! off = None ∧ name = off) →
  alias_closed (resolve_name o2c chr (n2o, off) name).1
  ∧ self_canonical (resolve_name o2c chr (n2o, off) name).1
      (resolve_name o2c chr (n2o, off) name).2.
Proof.
  intros Hclosed Hoff. unfold resolve_name.
  destruct (n2o !! name) as [c|] eqn:Hn.
  - destruct (o2c !! c) as [[[prev ss] es]|];
      [destruct (chr_differ prev chr)|]; simpl.
    + assert (self_canonical (<[name := name]> n2o) name) as Hself
        by (right; apply lookup_insert_eq).
      split; [|done]. by apply alias_closed_insert.
    + split; [done|]. by eapply Hclosed.
    + split; [done|]. by eapply Hclosed.
  - simpl.
    assert (self_canonical (<[name := off]> n2o) off) as Hself.
    { destruct Hoff as [[->|Hoff]|[Hoff ->]].
      - by left.
      - right. rewrite lookup_insert_ne; [done|]. intros ->. congruence.
      - right. apply lookup_insert_eq. }
    split; [|done]. apply alias_closed_insert; [done..|]. congruence.
Qed.

Lemma resolve_fold_closed names (n2o : gmap string string) off :
  alias_closed n2o → self_canonical n2o off →
  alias_closed (fold_left (resolve_name o2c chr) names (n2o, off)).1
  ∧ self_canonical (fold_left (resolve_name o2c chr) names (n2o, off)).1
      (fold_left (resolve_name o2c chr) names (n2o, off)).2.
Proof.
  revert n2o off. induction names as [|name names IH]; intros n2o off Hc Ho.
  - done.
  - simpl.
    destruct (resolve_name_closed n2o off name Hc (or_introl Ho)) as [Hc' Ho'].
    destruct (resolve_name o2c chr (n2o, off) name) as [n2o' off'].
    by apply IH.
Qed.

(** Started from a closed map, with a running name that is self-canonical
    or is the first name about to be entered, the loop keeps the map
    closed after every name, and ends with a self-canonical running
    name. *)
Lemma resolve_prefix_closed pre post (n2o : gmap string string) off :
  alias_closed n2o →
  self_canonical n2o off ∨ (n2o !! off = None ∧ head (pre ++ post) = Some off) →
  alias_closed (fold_left (resolve_name o2c chr) pre (n2o, off)).1
  ∧ (post = [] →
     self_canonical (fold_left (resolve_name o2c chr) pre (n2o, off)).1
       (fold_left (resolve_name o2c chr) pre (n2o, off)).2).
Proof.
  intros Hc Ho. destruct pre as [|name pre].
  - simpl. split; [done|]. intros ->.
    destruct Ho as [Ho|[_ Ho]]; done.
  - simpl in *.
    assert (self_canonical n2o off ∨ n2o !! off = None ∧ name = off) as Ho'.
    { destruct Ho as [Ho|[Ho [= ->]]]; [by left|by right]. }
    destruct (resolve_name_closed n2o off name Hc Ho') as [Hc1 Ho1].
    destruct (resolve_name o2c chr (n2o, off) name) as [n2o1 off1].
    destruct (resolve_fold_closed pre n2o1 off1 Hc1 Ho1). done.
Qed.

(** A name that is its own canonical name stays so. *)
Lemma resolve_name_fixed (n2o : gmap string string) off name n :
  n2o !! n = Some n →
  (resolve_name o2c chr (n2o, off) name).1 !! n = Some n.
Proof.
  intros Hn. unfold resolve_name.
  destruct (n2o !! name) as [c|] eqn:Hname.
  - destruct (o2c !! c) as [[[prev ss] es]|];
      [destruct (chr_differ prev chr)|]; simpl; try done.
    destruct (decide (name = n)) as [->|Hne].
    + apply lookup_insert_eq.
    + by rewrite lookup_insert_ne.
  - simpl. rewrite lookup_insert_ne; [done|]. intros ->. congruence.
Qed.

Lemma resolve_fold_fixed names (n2o : gmap string string) off n :
  n2o !! n = Some n →
  (fold_left (resolve_name o2c chr) names (n2o, off)).1 !! n = Some n.
Proof.
  revert n2o off. induction names as [|name names IH]; intros n2o off Hn.
  - done.
  - simpl. pose proof (resolve_name_fixed n2o off name n Hn) as H.
    destruct (resolve_name o2c chr (n2o, off) name) as [n2o' off'].
    by apply IH.
Qed.

(** The loop touches the entries of the names it meets only. *)
Lemma resolve_name_other (n2o : gmap string string) off name n :
  name ≠ n →
  (resolve_name o2c chr (n2o, off) name).1 !! n = n2o !! n.
Proof.
  intros Hne. unfold resolve_name.
  destruct (n2o !! name) as [c|].
  - destruct (o2c !! c) as [[[prev ss] es]|];
      [destruct (chr_differ prev chr)|]; simpl; try done.
    by rewrite lookup_insert_ne.
  - simpl. by rewrite lookup_insert_ne.
Qed.

Lemma resolve_fold_other names (n2o : gmap string string) off n :
  n ∉ names →
  (fold_left (resolve_name o2c chr) names (n2o, off)).1 !! n = n2o !! n.
Proof.
  revert n2o off. induction names as [|name names IH]; intros n2o off Hn.
  - done.
  - apply not_elem_of_cons in Hn as [Hne Hn]. simpl.
    pose proof (resolve_name_other n2o off name n (not_eq_sym Hne)) as H.
    destruct (resolve_name o2c chr (n2o, off) name) as [n2o' off'].
    simpl in H. rewrite <- H. by apply IH.
Qed.

(** Distinct names that are all new are bound to the running name and
    leave it, and the entries of the map, as they are. *)
Lemma resolve_fold_new names (n2o : gmap string string) off :
  NoDup names → Forall (λ m, n2o !! m = None) names →
  (fold_left (resolve_name o2c chr) names (n2o, off)).2 = off
  ∧ (∀ m, m ∈ names →
      (fold_left (resolve_name o2c chr) names (n2o, off)).1 !! m = Some off)
  ∧ (∀ m v, n2o !! m = Some v →
      (fold_left (resolve_name o2c chr) names (n2o, off)).1 !! m = Some v).
Proof.
  revert n2o. induction names as [|name names IH]; intros n2o Hnd Hnew.
  - split; [done|]. split; [|done]. intros m Hm. by apply elem_of_nil in Hm.
  - apply NoDup_cons in Hnd as [Hnotin Hnd].
    apply Forall_cons in Hnew as [Hname Hnew].
    simpl. rewrite resolve_name_new by done.
    assert (Forall (λ m, <[name := off]> n2o !! m = None) names) as Hnew'.
    { apply Forall_forall. intros m Hm.
      rewrite lookup_insert_ne; [|by intros ->].
      by eapply Forall_forall in Hnew. }
    destruct (IH _ Hnd Hnew') as (Hoff & Hall & Hkeep).
    split; [done|]. split.
    + intros m [->|Hm]%elem_of_cons; [|by apply Hall].
      apply Hkeep, lookup_insert_eq.
    + intros m v Hm. apply Hkeep.
      rewrite lookup_insert_ne; [done|]. intros ->. congruence.
Qed.

End resolve.

(** ** One row *)

Section rows.

Lemma aggregate_other_chromosome f off
    (o2c : gmap string (Chromosome * list Z * list Z)) k prev ss es :
  o2c !! k = Some (prev, ss, es) →
  chr_n prev ≠ -1 → chr_n prev ≠ chr_n (chr_no f) →
  aggregate f off o2c !! k = Some (prev, ss, es).
Proof.
  intros Hk Hvalid Hdiff. unfold aggregate, chr_differ, Chromosome_int.
  destruct (decide (off = k)) as [->|Hne].
  - rewrite Hk.
    apply Z.eqb_neq in Hvalid as ->. by apply Z.eqb_neq in Hdiff as ->.
  - destruct (o2c !! off) as [[[p s] e]|]; [destruct (_ && _)|];
      by rewrite ?lookup_insert_ne.
Qed.

(** What a row does to the entry of a canonical name. *)
Lemma process_fact_lookup d f k :
  coords_valid (official_to_coord d) →
  official_to_coord (process_fact d f) !! k =
    if bool_decide (official_of d f = k) && recorded d f
    then add_fact (official_to_coord d !! k) f
    else official_to_coord d !! k.
Proof.
  intros Hvalid. unfold process_fact, recorded, official_of.
  destruct (resolve_names d f) as [n2o off]. simpl.
  unfold aggregate, chr_differ, Chromosome_int.
  destruct (official_to_coord d !! off) as [[[prev ss] es]|] eqn:Hoff.
  - destruct (Hvalid _ _ _ _ Hoff) as [[Hlo _] _].
    assert ((chr_n prev =? -1) = false) as -> by lia.
    destruct (chr_n prev =? chr_n (chr_no f)); simpl.
    + case_bool_decide as Hk; simpl.
      * subst k. by rewrite lookup_insert_eq, Hoff.
      * by rewrite lookup_insert_ne.
    + by rewrite andb_false_r.
  - rewrite andb_true_r. case_bool_decide as Hk.
    + subst k. by rewrite lookup_insert_eq, Hoff.
    + by rewrite lookup_insert_ne.
Qed.

Lemma process_fact_names d f :
  name_to_official (process_fact d f) = (resolve_names d f).1.
Proof. unfold process_fact. by destruct (resolve_names d f). Qed.

Lemma process_fact_inv d f :
  dicts_inv d → fact_wf f → dicts_inv (process_fact d f).
Proof.
  intros (Hvalid & Hclosed & Hkeys) [Hchr Hgene].
  assert (self_canonical (name_to_official d) (initial_guess d f)
          ∨ (name_to_official d !! initial_guess d f = None
             ∧ head (names f ++ []) = Some (initial_guess d f))) as Hinit.
  { unfold initial_guess. rewrite app_nil_r.
    destruct (name_to_official d !! gene_name f) as [c|] eqn:Hg; simpl.
    - left. by eapply Hclosed.
    - destruct Hgene as [->|Hhead]; [by left; left|by right]. }
  destruct (resolve_prefix_closed (official_to_coord d) (chr_no f)
              (names f) [] _ _ Hclosed Hinit) as [Hc' Ho'].
  specialize (Ho' eq_refl).
  split; [|split].
  - intros k c ss es. rewrite process_fact_lookup by done.
    destruct (_ && _).
    + destruct (official_to_coord d !! k) as [[[p s] e]|]; simpl;
        intros [= <- <- <-].
      * split; [done|]. split; [by destruct s|by destruct e].
      * split; [done|]. by split.
    + apply Hvalid.
  - by rewrite process_fact_names.
  - intros k. rewrite process_fact_names, process_fact_lookup by done.
    destruct (bool_decide _ && _) eqn:E.
    + intros _. apply andb_true_iff in E as [E _].
      apply bool_decide_eq_true in E as <-. done.
    + intros Hk. destruct (Hkeys _ Hk) as [->|Hself]; [by left|right].
      by apply resolve_fold_fixed.
Qed.

Lemma init_valid x c :
  (c' ← Chromosome_init x; Ok (Some c')) = Ok (Some c) → valid_chromosome c.
Proof.
  destruct (Chromosome_init x) as [c'|] eqn:E; [|done].
  intros [= <-]. by eapply Chromosome_init_valid.
Qed.

Lemma int_init_valid s c :
  (i ← Py.int s; c' ← Chromosome_init (PInt i); Ok (Some c')) = Ok (Some c) →
  valid_chromosome c.
Proof. destruct (Py.int s) as [i|]; [apply init_valid|done]. Qed.

Lemma chromosome_of_label_valid label c :
  chromosome_of_label label = Ok (Some c) → valid_chromosome c.
Proof.
  unfold chromosome_of_label.
  destruct (str_in label _); [apply init_valid|].
  destruct (Py.len label <=? 2); [apply int_init_valid|].
  destruct (Py.contains _ _); [|done].
  destruct (Py.item _ 1) as [second|]; [|done].
  change (Ok second ≫= ?k) with (k second). cbv beta.
  destruct (Py.str_isdigit second); [apply int_init_valid|].
  destruct (Py.item _ 0) as [first|]; [|done].
  change (Ok first ≫= ?k) with (k first). cbv beta.
  destruct (_ || _); [apply init_valid|].
  destruct (String.eqb _ "MT"); [apply init_valid|apply int_init_valid].
Qed.

Lemma parse_line_wf line f : parse_line line = Ok (Some f) → fact_wf f.
Proof.
  unfold parse_line.
  destruct (Py.strip <$> Py.split_tab line)
    as [|s [|e [|g [|syn [|w [|u [|label [|]]]]]]]]; try done.
  destruct (chromosome_of_label label) as [[c|]|] eqn:Hc; simpl; try done.
  destruct (Py.int s); simpl; [|done].
  destruct (Py.int e); simpl; [|done].
  intros [= <-]. split; simpl.
  - by eapply chromosome_of_label_valid.
  - destruct (String.eqb g "") eqn:E.
    + left. by apply String.eqb_eq.
    + by right.
Qed.

Lemma read_rows_preserves (P : dicts → Prop) :
  (∀ d f, P d → fact_wf f → P (process_fact d f)) →
  ∀ rows d d', P d → read_rows d rows = Ok d' → P d'.
Proof.
  intros Hstep. induction rows as [|line rows IH]; intros d d' Hd; simpl.
  - by intros [= <-].
  - destruct (String.eqb line ""); [by intros [= <-]|].
    unfold ingest_row.
    destruct (parse_line line) as [[f|]|] eqn:Hline; simpl; try done.
    + apply IH, Hstep; [done|]. by eapply parse_line_wf.
    + by apply IH.
Qed.

Lemma no_dicts_inv : dicts_inv no_dicts.
Proof.
  split; [|split]; simpl.
  - intros k c ss es. by rewrite lookup_empty.
  - intros n c. by rewrite lookup_empty.
  - intros k. rewrite lookup_empty. by intros [? ?].
Qed.

Lemma ingested_inv d : ingested d → dicts_inv d.
Proof.
  intros [rows Hrows].
  eapply (read_rows_preserves dicts_inv); [|apply no_dicts_inv|done].
  intros. by apply process_fact_inv.
Qed.

End rows.

(** ** The whole table *)

Section tables.

Lemma read_rows_facts rows d d' :
  read_rows d rows = Ok d' →
  ∃ facts, parse_rows rows = Ok facts ∧ Forall fact_wf facts
           ∧ d' = fold_left process_fact facts d.
Proof.
  revert d. induction rows as [|line rows IH]; intros d; simpl.
  - intros [= <-]. by exists [].
  - destruct (String.eqb line ""); [intros [= <-]; by exists []|].
    unfold ingest_row.
    destruct (parse_line line) as [[f|]|] eqn:Hline; simpl; try done.
    + intros (facts & -> & Hwf & ->)%IH. exists (f :: facts).
      split; [done|]. split; [|done].
      constructor; [by eapply parse_line_wf|done].
    + intros (facts & -> & Hwf & ->)%IH. by exists facts.
Qed.

Lemma process_facts_inv facts d :
  dicts_inv d → Forall fact_wf facts →
  dicts_inv (fold_left process_fact facts d).
Proof.
  revert d. induction facts as [|f facts IH]; intros d Hd Hwf; [done|].
  apply Forall_cons in Hwf as [Hf Hwf]. simpl.
  apply IH; [by apply process_fact_inv|done].
Qed.

(** The entry of [k] after the facts: the facts recorded under [k], added
    one after the other to the entry before. *)
Lemma process_facts_lookup facts d k :
  dicts_inv d → Forall fact_wf facts →
  official_to_coord (fold_left process_fact facts d) !! k
  = fold_left add_fact (aggregated_under k d facts)
      (official_to_coord d !! k).
Proof.
  revert d. induction facts as [|f facts IH]; intros d Hd Hwf; [done|].
  apply Forall_cons in Hwf as [Hf Hwf]. simpl.
  rewrite IH by (by try apply process_fact_inv).
  rewrite fold_left_app, process_fact_lookup by apply Hd.
  by destruct (_ && _).
Qed.

Lemma add_facts_some l c ss es :
  fold_left add_fact l (Some (c, ss, es))
  = Some (default c (chr_no <$> last l),
          ss ++ (start_coord <$> l), es ++ (end_coord <$> l)).
Proof.
  revert c ss es. induction l as [|f l IH]; intros c ss es; simpl.
  - by rewrite !app_nil_r.
  - rewrite IH, <- !app_assoc. simpl. rewrite last_cons.
    by destruct (last l).
Qed.

Lemma add_facts_none f l :
  fold_left add_fact (f :: l) None
  = Some (default (chr_no f) (chr_no <$> last l),
          start_coord <$> f :: l, end_coord <$> f :: l).
Proof. simpl. by rewrite add_facts_some. Qed.

(** Every fact recorded under a name is on the chromosome of its entry. *)
Lemma aggregated_same_chr facts d k c ss es :
  dicts_inv d → Forall fact_wf facts →
  official_to_coord d !! k = Some (c, ss, es) →
  Forall (λ g, chr_no g = c) (aggregated_under k d facts).
Proof.
  revert d ss es. induction facts as [|f facts IH]; intros d ss es Hd Hwf Hk;
    simpl; [done|].
  apply Forall_cons in Hwf as [Hf Hwf].
  pose proof (process_fact_lookup d f k (proj1 Hd)) as Hnext.
  destruct (bool_decide _ && recorded d f) eqn:E.
  - apply andb_true_iff in E as [Ek Erec].
    apply bool_decide_eq_true in Ek.
    unfold recorded in Erec. rewrite Ek, Hk in Erec.
    apply Z.eqb_eq in Erec.
    assert (chr_no f = c) as Hc.
    { destruct (chr_no f), c. simpl in *. by subst. }
    rewrite Hk in Hnext. simpl in Hnext. rewrite Hc in Hnext.
    constructor; [done|].
    eapply IH; [by apply process_fact_inv|done..].
  - rewrite Hk in Hnext. simpl.
    eapply IH; [by apply process_fact_inv|done..].
Qed.

Lemma aggregated_first_chr facts d k :
  dicts_inv d → Forall fact_wf facts →
  official_to_coord d !! k = None →
  match aggregated_under k d facts with
  | [] => True
  | g :: rest => Forall (λ h, chr_no h = chr_no g) rest
  end.
Proof.
  revert d. induction facts as [|f facts IH]; intros d Hd Hwf Hk;
    simpl; [done|].
  apply Forall_cons in Hwf as [Hf Hwf].
  pose proof (process_fact_lookup d f k (proj1 Hd)) as Hnext.
  rewrite Hk in Hnext.
  destruct (bool_decide _ && recorded d f); simpl in *.
  - eapply aggregated_same_chr; [by apply process_fact_inv|done..].
  - apply IH; [by apply process_fact_inv|done..].
Qed.

Lemma fold_min_least l x : is_least (fold_left Z.min l x) (x :: l).
Proof.
  revert x. induction l as [|y l IH]; intros x; simpl.
  - split; [by left|]. intros z [->|Hz%elem_of_nil]%elem_of_cons; [lia|done].
  - destruct (IH (Z.min x y)) as [Hin Hle]. split.
    + apply elem_of_cons in Hin as [Hin|Hin].
      * rewrite Hin.
        destruct (Z.min_spec x y) as [[_ ->]|[_ ->]];
          [by left|right; by left].
      * by do 2 right.
    + intros z Hz.
      assert (fold_left Z.min l (Z.min x y) ≤ Z.min x y)
        by (apply Hle; by left).
      apply elem_of_cons in Hz as [->|Hz]; [lia|].
      apply elem_of_cons in Hz as [->|Hz]; [lia|].
      apply Hle. by right.
Qed.

Lemma fold_max_greatest l x : is_greatest (fold_left Z.max l x) (x :: l).
Proof.
  revert x. induction l as [|y l IH]; intros x; simpl.
  - split; [by left|]. intros z [->|Hz%elem_of_nil]%elem_of_cons; [lia|done].
  - destruct (IH (Z.max x y)) as [Hin Hle]. split.
    + apply elem_of_cons in Hin as [Hin|Hin].
      * rewrite Hin.
        destruct (Z.max_spec x y) as [[_ ->]|[_ ->]];
          [right; by left|by left].
      * by do 2 right.
    + intros z Hz.
      assert (Z.max x y ≤ fold_left Z.max l (Z.max x y))
        by (apply Hle; by left).
      apply elem_of_cons in Hz as [->|Hz]; [lia|].
      apply elem_of_cons in Hz as [->|Hz]; [lia|].
      apply Hle. by right.
Qed.

Lemma collapse_ok c ss es :
  ss ≠ [] → es ≠ [] →
  ∃ lo hi, collapse (c, ss, es) = Ok (c, lo, hi)
           ∧ is_least lo ss ∧ is_greatest hi es.
Proof.
  intros Hss Hes. destruct ss as [|s ss]; [done|]. destruct es as [|e es]; [done|].
  exists (fold_left Z.min ss s), (fold_left Z.max es e).
  split; [done|]. split; [apply fold_min_least|apply fold_max_greatest].
Qed.

Lemma finalize_lookup (m : gmap string (Chromosome * list Z * list Z)) m' :
  finalize m = Ok m' →
  ∀ k, (m !! k = None ∧ m' !! k = None)
       ∨ ∃ e v, m !! k = Some e ∧ collapse e = Ok v ∧ m' !! k = Some v.
Proof.
  unfold finalize. revert m'.
  apply (map_fold_weak_ind
    (λ r (m : gmap string (Chromosome * list Z * list Z)),
       ∀ m', r = Ok m' →
       ∀ k, (m !! k = None ∧ m' !! k = None)
            ∨ ∃ e v, m !! k = Some e ∧ collapse e = Ok v ∧ m' !! k = Some v)).
  - intros m' [= <-] k. left. by rewrite !lookup_empty.
  - intros i x m0 r Hi IH m' Hr.
    destruct r as [m1|]; [|done]. simpl in Hr.
    destruct (collapse x) as [v|] eqn:Hx; [|done].
    injection Hr as <-. intros k.
    destruct (decide (i = k)) as [->|Hne].
    + right. exists x, v. by rewrite !lookup_insert_eq.
    + rewrite !lookup_insert_ne by done. by apply IH.
Qed.

Lemma finalize_total (m : gmap string (Chromosome * list Z * list Z)) :
  coords_valid m → ∃ m', finalize m = Ok m'.
Proof.
  unfold finalize.
  apply (map_fold_weak_ind
    (λ r (m : gmap string (Chromosome * list Z * list Z)),
       coords_valid m → ∃ m', r = Ok m')).
  - intros _. by eexists.
  - intros i [[c ss] es] m0 r Hi IH Hvalid.
    destruct IH as [m1 ->].
    { intros k c' ss' es' Hk. apply (Hvalid k).
      rewrite lookup_insert_ne; [done|]. intros ->. congruence. }
    destruct (Hvalid i c ss es) as (_ & Hss & Hes); [apply lookup_insert_eq|].
    destruct (collapse_ok c ss es Hss Hes) as (lo & hi & Hcol & _).
    simpl. rewrite Hcol. by eexists.
Qed.

End tables.

(** ** Conflicts between loci *)




(** C2. A fact whose canonical name has coordinates on a chromosome other
    than the fact's is discarded: the coordinate store after the row is the
    store before it, so the earlier entry keeps its chromosome and its
    lists, and the fact is recorded under no name. *)
Theorem conflicting_row_is_discarded
    (d : dicts) (f : GeneFact) (prev : Chromosome) (ss es : list Z) :
  ingested d →
  official_to_coord d !! official_of d f = Some (prev, ss, es) →
  chr_n prev ≠ chr_n (chr_no f) →
  official_to_coord (process_fact d f) = official_to_coord d
  ∧ official_to_coord (process_fact d f) !! official_of d f
    = Some (prev, ss, es)
  ∧ (∀ k facts,
       aggregated_under k d (f :: facts)
       = aggregated_under k (process_fact d f) facts)
  ∧ (∀ line, parse_line line = Ok (Some f) →
       ∃ d', ingest_row d line = Ok d'
             ∧ official_to_coord d' = official_to_coord d).
Proof.
  intros Hd Hoff Hdiff.
  destruct (ingested_inv d Hd) as (Hvalid & _).
  assert (recorded d f = false) as Hrec.
  { unfold recorded. rewrite Hoff. by apply Z.eqb_neq. }
  assert (official_to_coord (process_fact d f) = official_to_coord d) as Hsame.
  { apply map_eq. intros k. rewrite process_fact_lookup by done.
    by rewrite Hrec, andb_false_r. }
  split; [done|]. split; [by rewrite Hsame|]. split.
  - intros k facts. simpl. by rewrite Hrec, andb_false_r.
  - intros line Hline. exists (process_fact d f). split; [|done].
    unfold ingest_row. by rewrite Hline.
Qed.

Lemma conflicting_row_is_discarded_witness :
  official_to_coord
    (process_fact (dicts_after [auf1_row]) (fact_of hnrnpd_conflict_row))
  = official_to_coord (dicts_after [auf1_row]).
Proof.
  destruct (conflicting_row_is_discarded
              (dicts_after [auf1_row]) (fact_of hnrnpd_conflict_row)
              {| chr_n := 4 |} [82352498] [82374503])
    as (H & _).
  - exists [auf1_row]. vm_compute. reflexivity.
  - vm_compute. reflexivity.
  - vm_compute. discriminate.
  - exact H.
Defined.

(** ** The running canonical name *)

Lemma initial_guess_ok d f :
  alias_closed (name_to_official d) → fact_wf f →
  self_canonical (name_to_official d) (initial_guess d f)
  ∨ (name_to_official d !! initial_guess d f = None
     ∧ head (names f) = Some (initial_guess d f)).
Proof.
  intros Hclosed [_ Hgene]. unfold initial_guess.
  destruct (name_to_official d !! gene_name f) as [c|] eqn:Hg; simpl.
  - left. by eapply Hclosed.
  - destruct Hgene as [->|Hhead]; [by left; left|by right].
Qed.

(** C5, as the code has it. A name that is not yet in the alias map is
    bound to the running canonical name and leaves it as it is. The running
    name starts as the alias of the gene symbol (the symbol itself when it
    has none) and stays so as long as the names met are distinct and new;
    every name met that is already known sets it: to the canonical name of
    that name when this one has no coordinates or has them on the fact's
    chromosome, with the map left as it is, and to the name itself when it
    is demoted. *)
Theorem new_name_bound_to_running_guess
    (d : dicts) (f : GeneFact) (pre post : list string) (n : string) :
  names f = pre ++ n :: post →
  (fold_left (resolve_name (official_to_coord d) (chr_no f)) pre
     (name_to_official d, initial_guess d f)).1 !! n = None →
  let step := resolve_name (official_to_coord d) (chr_no f) in
  let st := fold_left step pre (name_to_official d, initial_guess d f) in
  step st n = (<[n := st.2]> st.1, st.2)
  ∧ (NoDup pre → Forall (λ m, name_to_official d !! m = None) pre →
     st.2 = initial_guess d f)
  ∧ (∀ pre' m c,
       pre = pre' ++ [m] →
       let st' :=
         fold_left step pre' (name_to_official d, initial_guess d f) in
       st'.1 !! m = Some c →
       match official_to_coord d !! c with
       | None => st = (st'.1, c)
       | Some (prev, _, _) =>
           if chr_differ prev (chr_no f)
           then st = (<[m := m]> st'.1, m)
           else st = (st'.1, c)
       end).
Proof.
  intros Hnames Hnew step st. split; [|split].
  - subst st step. destruct (fold_left _ pre _) as [n2o1 off1].
    by apply resolve_name_new.
  - intros Hnd Hall. subst st step. by apply resolve_fold_new.
  - intros pre' m c -> st' Hm. subst st st' step.
    rewrite fold_left_app. simpl.
    destruct (fold_left _ pre' _) as [n2o1 off1]. simpl in Hm.
    unfold resolve_name. rewrite Hm.
    destruct (official_to_coord d !! c) as [[[prev ss] es]|]; [|done].
    by destruct (chr_differ prev (chr_no f)).
Qed.

Lemma new_name_bound_to_running_guess_witness :
  fold_left
    (resolve_name (official_to_coord (dicts_after bare_canonical_rows))
       {| chr_n := 3 |})
    ["D"; "C"; "E"]%string
    (name_to_official (dicts_after bare_canonical_rows), "D"%string)
  = (<["E"%string := "C"%string]>
       (<["D"%string := "D"%string]>
          (name_to_official (dicts_after bare_canonical_rows))),
     "C"%string).
Proof.
  destruct (new_name_bound_to_running_guess
              (dicts_after bare_canonical_rows)
              (fact_of bare_canonical_next_row)
              ["D"; "C"]%string [] "E"%string)
    as (H & _ & _).
  - vm_compute. reflexivity.
  - vm_compute. reflexivity.
  - vm_compute in H. vm_compute. exact H.
Defined.

(** C5, the known name without coordinates: after [bare_canonical_rows] the
    name C is its own canonical name and has no coordinates; met while the
    running name is D, it makes the running name C. *)
Lemma known_name_changes_running_guess :
  ¬ (∀ d chr official_name name c,
       ingested d →
       name_to_official d !! name = Some c →
       official_to_coord d !! c = None →
       (resolve_name (official_to_coord d) chr
          (name_to_official d, official_name) name).2 = official_name).
Proof.
  intros H.
  assert (ingested (dicts_after bare_canonical_rows)) as Hd.
  { exists bare_canonical_rows. vm_compute. reflexivity. }
  pose proof (H (dicts_after bare_canonical_rows) {| chr_n := 3 |}
                "D"%string "C"%string "C"%string Hd eq_refl eq_refl) as E.
  vm_compute in E. discriminate E.
Qed.

(** ** The alias map and the coordinate map *)

(** What the loop keeps of the alias map. After every row, after every name
    within a row and in the finished dictionaries, every key of the alias
    map maps to a name that is recorded as its own canonical name in the
    alias map (or to the empty gene symbol of a row without one), and the
    keys of the coordinate map are such names. *)
Theorem alias_targets_are_self_canonical :
  (∀ d, ingested d →
     alias_closed (name_to_official d)
     ∧ ∀ k, is_Some (official_to_coord d !! k) →
            self_canonical (name_to_official d) k)
  ∧ (∀ d line f pre post,
       ingested d → parse_line line = Ok (Some f) →
       names f = pre ++ post →
       alias_closed
         (fold_left (resolve_name (official_to_coord d) (chr_no f)) pre
            (name_to_official d, initial_guess d f)).1)
  ∧ (∀ bio_mart_file name_to_official official_to_coord,
       file_to_dicts bio_mart_file = Ok (name_to_official, official_to_coord) →
       alias_closed name_to_official
       ∧ ∀ k, is_Some (official_to_coord !! k) →
              self_canonical name_to_official k).
Proof.
  split; [|split].
  - intros d Hd. by destruct (ingested_inv d Hd) as (_ & ? & ?).
  - intros d line f pre post Hd Hline Hnames.
    destruct (ingested_inv d Hd) as (_ & Hclosed & _).
    pose proof (parse_line_wf _ _ Hline) as Hwf.
    pose proof (initial_guess_ok d f Hclosed Hwf) as Hinit.
    rewrite Hnames in Hinit.
    by destruct (resolve_prefix_closed (official_to_coord d) (chr_no f)
                   pre post _ _ Hclosed Hinit).
  - intros file n2o o2c. unfold file_to_dicts.
    destruct (read_rows no_dicts (tail file)) as [d|] eqn:Hrows; [|done].
    simpl. destruct (finalize (official_to_coord d)) as [m|] eqn:Hfin; [|done].
    simpl. intros [= <- <-].
    destruct (ingested_inv d) as (_ & Hclosed & Hkeys); [by eexists|].
    split; [done|]. intros k Hk. apply Hkeys.
    destruct (finalize_lookup _ _ Hfin k) as [[_ E]|(e & v & -> & _)];
      [|done].
    rewrite E in Hk. by destruct Hk.
Qed.

Lemma alias_targets_are_self_canonical_witness :
  alias_closed (name_to_official (dicts_after bare_canonical_rows)).
Proof.
  apply (proj1 alias_targets_are_self_canonical).
  exists bare_canonical_rows. vm_compute. reflexivity.
Defined.

(** The canonical name of a key need not be a key of the coordinate map:
    [late_known_table]. *)
Lemma alias_target_without_coordinates :
  ¬ (∀ bio_mart_file name_to_official official_to_coord,
       file_to_dicts bio_mart_file = Ok (name_to_official, official_to_coord) →
       ∀ n c, name_to_official !! n = Some c →
              c = n ∨ is_Some (official_to_coord !! c)).
Proof.
  intros H.
  destruct (file_to_dicts late_known_table) as [[n2o o2c]|] eqn:E;
    [|by vm_compute in E].
  specialize (H late_known_table n2o o2c E "B"%string "A"%string).
  vm_compute in E. injection E as <- <-.
  destruct H as [H|[v H]]; [reflexivity|discriminate H|].
  vm_compute in H. discriminate H.
Qed.

(** ** The finished coordinate map *)

(** C3. When the rows of a table have been read, the final loop succeeds,
    and for every canonical name the finished coordinate map holds: nothing
    when no fact was recorded under the name; otherwise the chromosome that
    all the facts recorded under it share, the least of their starts and
    the greatest of their ends, which is also what a lookup resolving to
    that name returns. On [hnrnpc_table], whose HNRNPC rows are on
    chromosome 14 with least start 21209136 and greatest end 21269494, the
    lookup of HNRNPC returns exactly these. *)
Theorem final_span_is_min_max :
  (∀ bio_mart_file d,
     read_rows no_dicts (tail bio_mart_file) = Ok d →
     ∃ facts official_to_coord,
       parse_rows (tail bio_mart_file) = Ok facts
       ∧ file_to_dicts bio_mart_file
         = Ok (name_to_official d, official_to_coord)
       ∧ ∀ k,
           match aggregated_under k no_dicts facts with
           | [] => official_to_coord !! k = None
           | g :: rest =>
               ∃ lo hi,
                 official_to_coord !! k = Some (chr_no g, lo, hi)
                 ∧ Forall (λ h, chr_no h = chr_no g) rest
                 ∧ is_least lo (start_coord <$> g :: rest)
                 ∧ is_greatest hi (end_coord <$> g :: rest)
                 ∧ ∀ gene,
                     name_to_official d !! Py.upper gene = Some k →
                     (hgfind None bio_mart_file gene).1
                     = Ok {| rna_chr_n := chr_no g; rna_start_coord := lo;
                             rna_end_coord := hi; rna_official_name := k |}
           end)
  ∧ (hgfind None hnrnpc_table "HNRNPC").1
    = Ok {| rna_chr_n := {| chr_n := 14 |}; rna_start_coord := 21209136;
            rna_end_coord := 21269494; rna_official_name := "HNRNPC" |}.
Proof.
  split; [|by vm_compute].
  intros file d Hrows.
  destruct (read_rows_facts _ _ _ Hrows) as (facts & Hfacts & Hwf & ->).
  pose proof (process_facts_inv facts no_dicts no_dicts_inv Hwf) as Hinv.
  set (d := fold_left process_fact facts no_dicts) in *.
  destruct (finalize_total (official_to_coord d) (proj1 Hinv)) as [m Hfin].
  assert (file_to_dicts file = Ok (name_to_official d, m)) as Hfile.
  { unfold file_to_dicts. rewrite Hrows. simpl. by rewrite Hfin. }
  exists facts, m. split; [done|]. split; [done|]. intros k.
  pose proof (process_facts_lookup facts no_dicts k no_dicts_inv Hwf) as Hk.
  fold d in Hk. simpl in Hk. rewrite lookup_empty in Hk.
  pose proof (aggregated_first_chr facts no_dicts k no_dicts_inv Hwf
                (lookup_empty _)) as Hchr.
  destruct (aggregated_under k no_dicts facts) as [|g rest].
  - simpl in Hk.
    destruct (finalize_lookup _ _ Hfin k) as [[_ E]|(e & v & E & _)];
      [done|congruence].
  - rewrite add_facts_none in Hk.
    assert (default (chr_no g) (chr_no <$> last rest) = chr_no g) as Hlast.
    { destruct (last rest) as [h|] eqn:E; [|done]. simpl.
      apply last_Some_elem_of in E. by eapply Forall_forall in Hchr. }
    rewrite Hlast in Hk.
    destruct (finalize_lookup _ _ Hfin k) as [[E _]|(e & v & E & Hcol & Hm)];
      [congruence|].
    assert (e = (chr_no g, start_coord <$> g :: rest, end_coord <$> g :: rest))
      as -> by congruence.
    destruct (collapse_ok (chr_no g) (start_coord <$> g :: rest)
                (end_coord <$> g :: rest)) as (lo & hi & Hcol' & Hlo & Hhi);
      [done..|].
    assert (v = (chr_no g, lo, hi)) as -> by congruence.
    exists lo, hi. repeat (split; [done|]).
    intros gene Hgene. unfold hgfind. rewrite Hfile. simpl.
    unfold lookup. by rewrite Hgene, Hm.
Qed.

Lemma final_span_is_min_max_witness :
  ∃ facts official_to_coord,
    parse_rows (tail hnrnpc_table) = Ok facts
    ∧ file_to_dicts hnrnpc_table
      = Ok (name_to_official (dicts_after (tail hnrnpc_table)),
            official_to_coord)
    ∧ ∀ k,
        match aggregated_under k no_dicts facts with
        | [] => official_to_coord !! k = None
        | g :: rest =>
            ∃ lo hi,
              official_to_coord !! k = Some (chr_no g, lo, hi)
              ∧ Forall (λ h, chr_no h = chr_no g) rest
              ∧ is_least lo (start_coord <$> g :: rest)
              ∧ is_greatest hi (end_coord <$> g :: rest)
              ∧ ∀ gene,
                  name_to_official (dicts_after (tail hnrnpc_table))
                  !! Py.upper gene = Some k →
                  (hgfind None hnrnpc_table gene).1
                  = Ok {| rna_chr_n := chr_no g; rna_start_coord := lo;
                          rna_end_coord := hi; rna_official_name := k |}
        end.
Proof.
  apply (proj1 final_span_is_min_max hnrnpc_table
           (dicts_after (tail hnrnpc_table))).
  vm_compute. reflexivity.
Defined.

(** ** More on Chromosome *)

Ltac rank_cases n :=
  let H := fresh in
  assert (n = 1 ∨ n = 2 ∨ n = 3 ∨ n = 4 ∨ n = 5 ∨ n = 6 ∨ n = 7 ∨ n = 8
          ∨ n = 9 ∨ n = 10 ∨ n = 11 ∨ n = 12 ∨ n = 13 ∨ n = 14 ∨ n = 15
          ∨ n = 16 ∨ n = 17 ∨ n = 18 ∨ n = 19 ∨ n = 20 ∨ n = 21 ∨ n = 22
          ∨ n = 23 ∨ n = 24 ∨ n = 25) as H by lia;
  repeat (destruct H as [H|H]; [subst n|]); [..|subst n].

Lemma str_then_init (c : Chromosome) :
  1 ≤ chr_n c ≤ 25 → Chromosome_init (PStr (Chromosome_str c)) = Ok c.
Proof.
  destruct c as [n]. simpl. intros Hn. rank_cases n; reflexivity.
Qed.

(** X1. The canonical string of a chromosome parses back to the same
    chromosome: for every chromosome [c] that the constructor has built
    from a [str] or from an [int] that is not a [bool], constructing from
    [str(c)] yields [c] again, and [str(c)] is X, Y, M or a numeral from 1
    to 22. *)
Theorem chromosome_str_round_trip (v : pyobj) (c : Chromosome) :
  Chromosome_init v = Ok c →
  Chromosome_init (PStr (Chromosome_str c)) = Ok c
  ∧ Chromosome_str c ∈ ["X"; "Y"; "M"]%string ++ (Py.str <$> seqZ 1 22).
Proof.
  intros Hinit. pose proof (Chromosome_init_valid _ _ Hinit) as Hvalid.
  split; [by apply str_then_init|].
  destruct c as [n]. simpl in Hvalid. unfold Chromosome_str. simpl.
  rank_cases n; apply str_in_spec; reflexivity.
Qed.

Lemma chromosome_str_round_trip_witness :
  Chromosome_init (PStr (Chromosome_str {| chr_n := 25 |}))
  = Ok {| chr_n := 25 |}.
Proof.
  apply (chromosome_str_round_trip (PStr "mt") {| chr_n := 25 |}).
  reflexivity.
Defined.

(** X3. The order on chromosomes is the strict total order of the ranks:
    [gt] is [lt] with the operands exchanged, of [a < b], [a == b] and
    [a > b] exactly one holds, [lt] is transitive, and every chromosome
    built from a number sorts before X, X before Y, and Y before the
    mitochondrial chromosome in both of its spellings. *)
Theorem chromosome_order_total :
  (∀ a b, Chromosome_lt a b = Chromosome_gt b a)
  ∧ (∀ a b,
       match Chromosome_lt a b, Chromosome_eq a (PChr b), Chromosome_gt a b with
       | true, Ok false, false => True
       | false, Ok true, false => a = b
       | false, Ok false, true => True
       | _, _, _ => False
       end)
  ∧ (∀ a b c,
       Chromosome_lt a b = true → Chromosome_lt b c = true →
       Chromosome_lt a c = true)
  ∧ (∀ n a x y m mt,
       Chromosome_init (PInt n) = Ok a →
       Chromosome_init (PStr "X") = Ok x →
       Chromosome_init (PStr "Y") = Ok y →
       Chromosome_init (PStr "M") = Ok m →
       Chromosome_init (PStr "MT") = Ok mt →
       Chromosome_lt a x = true ∧ Chromosome_lt x y = true
       ∧ Chromosome_lt y m = true ∧ Chromosome_lt y mt = true
       ∧ Chromosome_eq m (PChr mt) = Ok true).
Proof.
  split; [|split; [|split]].
  - intros [a] [b]. unfold Chromosome_lt, Chromosome_gt. simpl.
    by rewrite Z.gtb_ltb.
  - intros [a] [b]. unfold Chromosome_lt, Chromosome_gt, Chromosome_eq. simpl.
    rewrite Z.gtb_ltb.
    destruct (a <? b) eqn:E1, (a =? b) eqn:E2, (b <? a) eqn:E3;
      try done; try lia.
    f_equal. lia.
  - intros [a] [b] [c]. unfold Chromosome_lt. simpl. lia.
  - intros n a x y m mt Ha [= <-] [= <-] [= <-] [= <-].
    unfold Chromosome_init in Ha.
    destruct ((1 <=? n) && (n <=? 22)) eqn:E; [|done].
    injection Ha as <-.
    unfold Chromosome_lt. simpl. repeat split; lia.
Qed.

Lemma chromosome_order_total_witness :
  Chromosome_lt {| chr_n := 22 |} {| chr_n := 23 |} = true.
Proof.
  by destruct (proj2 (proj2 (proj2 chromosome_order_total))
                 22 {| chr_n := 22 |} {| chr_n := 23 |} {| chr_n := 24 |}
                 {| chr_n := 25 |} {| chr_n := 25 |}
                 eq_refl eq_refl eq_refl eq_refl eq_refl) as [H _].
Defined.

(** X4. For chromosomes that the constructor has built from a [str] or
    from an [int] that is not a [bool], the three ways to compare with
    another chromosome agree: [a == b], [a == int(b)] and [a == str(b)]
    give the same answer, so the canonical strings of two such chromosomes
    are equal only when the chromosomes are. *)
Theorem chromosome_eq_agrees (v w : pyobj) (a b : Chromosome) :
  Chromosome_init v = Ok a → Chromosome_init w = Ok b →
  Chromosome_eq a (PInt (Chromosome_int b)) = Chromosome_eq a (PChr b)
  ∧ Chromosome_eq a (PStr (Chromosome_str b)) = Chromosome_eq a (PChr b)
  ∧ (Chromosome_str a = Chromosome_str b → a = b).
Proof.
  intros Ha Hb.
  apply Chromosome_init_valid in Ha, Hb.
  assert (Chromosome_str a = Chromosome_str b → a = b) as Hinj.
  { intros E. pose proof (str_then_init a Ha) as H1.
    pose proof (str_then_init b Hb) as H2. congruence. }
  split; [done|]. split; [|done].
  unfold Chromosome_eq. f_equal.
  destruct (String.eqb_spec (Chromosome_str a) (Chromosome_str b)) as [E|E].
  - apply Hinj in E as ->. by rewrite Z.eqb_refl.
  - symmetry. apply Z.eqb_neq. intros E'. apply E.
    destruct a, b. simpl in *. by subst.
Qed.

Lemma chromosome_eq_agrees_witness :
  Chromosome_eq {| chr_n := 25 |} (PStr (Chromosome_str {| chr_n := 25 |}))
  = Chromosome_eq {| chr_n := 25 |} (PChr {| chr_n := 25 |}).
Proof.
  by destruct (chromosome_eq_agrees (PStr "MT") (PStr "m")
                 {| chr_n := 25 |} {| chr_n := 25 |} eq_refl eq_refl)
    as (_ & H & _).
Defined.

(** ** More on the rows *)

Lemma int_raises s e : Py.int s = Raise e → e = ValueError.
Proof.
  unfold Py.int.
  destruct (Py.int_rstrip _) as [|a body]; repeat case_match;
    by intros [= <-].
Qed.

Lemma init_raises v e : Chromosome_init v = Raise e → e = ValueError.
Proof.
  destruct v as [n|s|c|]; unfold Chromosome_init; try by intros [= <-].
  - case_match; by intros [= <-].
  - destruct (str_in _ _); [repeat case_match; by intros [= <-]|].
    unfold is_int. destruct (Py.int s) as [i|e'] eqn:E; [|by intros [= <-]].
    case_match; by intros [= <-].
Qed.

Lemma init_some_raises x e :
  (c ← Chromosome_init x; Ok (Some c)) = Raise e → e = ValueError.
Proof.
  destruct (Chromosome_init x) as [c|e'] eqn:E; [done|].
  intros [= <-]. by eapply init_raises.
Qed.

Lemma int_init_raises s e :
  (i ← Py.int s; c ← Chromosome_init (PInt i); Ok (Some c)) = Raise e →
  e = ValueError.
Proof.
  destruct (Py.int s) as [i|e'] eqn:E; [apply init_some_raises|].
  intros [= <-]. by eapply int_raises.
Qed.

Lemma item_raises s i e : Py.item s i = Raise e → e = IndexError.
Proof. unfold Py.item. case_match; by intros [= <-]. Qed.

Lemma chromosome_of_label_raises label e :
  chromosome_of_label label = Raise e → e = ValueError ∨ e = IndexError.
Proof.
  unfold chromosome_of_label.
  destruct (str_in label _); [left; by eapply init_some_raises|].
  destruct (Py.len label <=? 2); [left; by eapply int_init_raises|].
  destruct (Py.contains _ _); [|done].
  destruct (Py.item _ 1) as [second|e1] eqn:E1;
    [|intros [= <-]; right; by eapply item_raises].
  change (Ok second ≫= ?k) with (k second). cbv beta.
  destruct (Py.str_isdigit second); [left; by eapply int_init_raises|].
  destruct (Py.item _ 0) as [first|e0] eqn:E0;
    [|intros [= <-]; right; by eapply item_raises].
  change (Ok first ≫= ?k) with (k first). cbv beta.
  destruct (_ || _); [left; by eapply init_some_raises|].
  destruct (String.eqb _ "MT"); left;
    [by eapply init_some_raises|by eapply int_init_raises].
Qed.

Lemma parse_line_raises line e :
  parse_line line = Raise e → e = ValueError ∨ e = IndexError.
Proof.
  unfold parse_line.
  destruct (Py.strip <$> Py.split_tab line)
    as [|s [|e' [|g [|syn [|w [|u [|label [|]]]]]]]];
    try (intros [= <-]; by left).
  destruct (chromosome_of_label label) as [[c|]|e1] eqn:Hc; simpl; try done.
  - destruct (Py.int s) as [i|e2] eqn:E2; simpl;
      [|intros [= <-]; left; by eapply int_raises].
    destruct (Py.int e') as [j|e3] eqn:E3; simpl; [done|].
    intros [= <-]. left. by eapply int_raises.
  - intros [= <-]. by eapply chromosome_of_label_raises.
Qed.

Lemma split_tab_length s :
  length (Py.split_tab s)
  = S (length (filter (λ c, c = Py.tab) (list_ascii_of_string s))).
Proof.
  induction s as [|c s IH]; simpl; [done|].
  destruct (Ascii.eqb_spec c Py.tab) as [->|Hne].
  - rewrite filter_cons_True by done. simpl. by rewrite IH.
  - rewrite filter_cons_False by done.
    destruct (Py.split_tab s) as [|h t]; [done|]. by rewrite <- IH.
Qed.

(** X5. A line that does not hold exactly six tab characters, the blank
    line included, does not unpack into the seven fields of a row: the row
    raises [ValueError], whatever the dictionaries are. *)
Theorem wrong_field_count_raises (line : string) :
  length (filter (λ c, c = Py.tab) (list_ascii_of_string line)) ≠ 6%nat →
  parse_line line = Raise ValueError
  ∧ ∀ d, ingest_row d line = Raise ValueError.
Proof.
  intros Htabs.
  assert (parse_line line = Raise ValueError) as Hparse.
  { unfold parse_line.
    pose proof (split_tab_length line) as Hlen.
    rewrite <- (length_fmap Py.strip) in Hlen.
    destruct (Py.strip <$> Py.split_tab line)
      as [|s [|e' [|g [|syn [|w [|u [|label [|]]]]]]]]; try done.
    simpl in Hlen. lia. }
  split; [done|]. intros d. unfold ingest_row. by rewrite Hparse.
Qed.

Lemma wrong_field_count_raises_witness :
  parse_line line_feed = Raise ValueError.
Proof.
  apply (wrong_field_count_raises line_feed). vm_compute. lia.
Defined.

Lemma parse_line_inv line f :
  parse_line line = Ok (Some f) →
  ∃ s e syn w u label,
    Py.strip <$> Py.split_tab line = [s; e; gene_name f; syn; w; u; label]
    ∧ names f = filter (λ name, name ≠ ""%string) [gene_name f; syn; w; u].
Proof.
  intros Hline.
  destruct (Py.strip <$> Py.split_tab line)
    as [|s [|e [|g [|syn [|w [|u [|label [|]]]]]]]] eqn:Hsplit;
    try (unfold parse_line in Hline; by rewrite Hsplit in Hline).
  rewrite (parse_line_fields _ _ _ _ _ _ _ _ Hsplit) in Hline.
  unfold mbind, result_bind in Hline.
  destruct (chromosome_of_label label) as [[c|]|]; try done.
  destruct (Py.int s); [|done]. destruct (Py.int e); [|done].
  injection Hline as <-. cbn [names gene_name].
  do 6 eexists. split; [reflexivity|].
  repeat match goal with
    | |- context [String.eqb ?x ""] =>
        destruct (String.eqb_spec x "") as [->|?]
    end; cbn [negb];
    repeat first [ rewrite filter_cons_True by done
                 | rewrite filter_cons_False by naive_solver ];
    by rewrite ?filter_nil.
Qed.

Lemma parse_line_no_empty_name line f :
  parse_line line = Ok (Some f) → EmptyString ∉ names f.
Proof.
  intros (s & e & syn & w & u & label & _ & ->)%parse_line_inv.
  intros H%list_elem_of_filter. by destruct H.
Qed.

(** X6. The fact of a row that parses: its chromosome has a rank in 1..25,
    it has at most four names, none of them empty, in the order of the
    fields, and its gene symbol, when the row has one, is the first name.
    A row may have no name at all. *)
Theorem parsed_fact_shape (line : string) (f : GeneFact) :
  parse_line line = Ok (Some f) →
  1 ≤ chr_n (chr_no f) ≤ 25
  ∧ (length (names f) ≤ 4)%nat
  ∧ (EmptyString ∉ names f)
  ∧ (gene_name f = ""%string ∨ head (names f) = Some (gene_name f))
  ∧ ∃ s e syn w u label,
      Py.strip <$> Py.split_tab line = [s; e; gene_name f; syn; w; u; label]
      ∧ names f
        = filter (λ name, name ≠ ""%string) [gene_name f; syn; w; u].
Proof.
  intros Hline. destruct (parse_line_wf _ _ Hline) as [Hvalid Hgene].
  pose proof (parse_line_no_empty_name _ _ Hline) as Hne.
  destruct (parse_line_inv _ _ Hline)
    as (s & e & syn & w & u & label & Hsplit & Hnames).
  split; [done|]. split; [|split; [done|split; [done|]]].
  - rewrite Hnames. etrans; [apply length_filter|]. done.
  - by exists s, e, syn, w, u, label.
Qed.

Lemma parsed_fact_shape_witness :
  names (fact_of auf1_row) = ["HNRNPD"; "AUF1"]%string.
Proof.
  destruct (parsed_fact_shape auf1_row (fact_of auf1_row))
    as (_ & _ & _ & _ & s & e & syn & w & u & label & Hfields & Hnames).
  - vm_compute. reflexivity.
  - vm_compute. reflexivity.
Defined.

(** X7. A label of at most two characters is never skipped, and what it
    gives is fixed by the label: chromosome 23, 24 or 25 for the exact
    labels X, Y and MT; otherwise the chromosome [i] when [int(label)] is an
    [i] in 1..22, and [ValueError] when it is another integer or no integer
    at all. So the labels M and x, which the constructor would accept,
    raise. *)
Theorem short_label_never_skipped (label : string) :
  Py.len label ≤ 2 →
  chromosome_of_label label
  = (if String.eqb label "X" then Ok (Some {| chr_n := 23 |})
     else if String.eqb label "Y" then Ok (Some {| chr_n := 24 |})
     else if String.eqb label "MT" then Ok (Some {| chr_n := 25 |})
     else match Py.int label with
          | Ok i =>
              if (1 <=? i) && (i <=? 22) then Ok (Some {| chr_n := i |})
              else Raise ValueError
          | Raise _ => Raise ValueError
          end)
  ∧ chromosome_of_label label ≠ Ok None
  ∧ chromosome_of_label "M" = Raise ValueError
  ∧ chromosome_of_label "x" = Raise ValueError.
Proof.
  intros Hlen.
  assert (chromosome_of_label label
          = (if String.eqb label "X" then Ok (Some {| chr_n := 23 |})
             else if String.eqb label "Y" then Ok (Some {| chr_n := 24 |})
             else if String.eqb label "MT" then Ok (Some {| chr_n := 25 |})
             else match Py.int label with
                  | Ok i =>
                      if (1 <=? i) && (i <=? 22)
                      then Ok (Some {| chr_n := i |})
                      else Raise ValueError
                  | Raise _ => Raise ValueError
                  end)) as Heq.
  { destruct (String.eqb_spec label "X") as [->|HX]; [reflexivity|].
    destruct (String.eqb_spec label "Y") as [->|HY]; [reflexivity|].
    destruct (String.eqb_spec label "MT") as [->|HMT]; [reflexivity|].
    unfold chromosome_of_label.
    assert (str_in label ["X"; "Y"; "MT"]%string = false) as ->.
    { destruct (str_in label _) eqn:E; [|done].
      apply str_in_spec in E.
      repeat (apply elem_of_cons in E as [?|E]; [done|]).
      by apply elem_of_nil in E. }
    assert ((Py.len label <=? 2) = true) as -> by lia.
    destruct (Py.int label) as [i|e] eqn:Hint; simpl.
    - unfold Chromosome_init. by destruct ((1 <=? i) && (i <=? 22)).
    - by rewrite (int_raises _ _ Hint). }
  split; [done|]. split; [|by split].
  rewrite Heq. repeat case_match; done.
Qed.

Lemma short_label_never_skipped_witness :
  chromosome_of_label "14" = Ok (Some {| chr_n := 14 |}).
Proof.
  destruct (short_label_never_skipped "14") as [H _].
  - vm_compute. discriminate.
  - rewrite H. reflexivity.
Defined.

(** ** More on the ingestion *)

Lemma read_rows_preserves_parsed (P : dicts → Prop) :
  (∀ d line f, P d → parse_line line = Ok (Some f) → P (process_fact d f)) →
  ∀ rows d d', P d → read_rows d rows = Ok d' → P d'.
Proof.
  intros Hstep. induction rows as [|line rows IH]; intros d d' Hd; simpl.
  - by intros [= <-].
  - destruct (String.eqb line ""); [by intros [= <-]|].
    unfold ingest_row.
    destruct (parse_line line) as [[f|]|] eqn:Hline; simpl; try done.
    + apply IH. by eapply Hstep.
    + by apply IH.
Qed.

Lemma resolve_name_kept o2c chr (n2o : gmap string string) off name n c :
  n2o !! n = Some c →
  (resolve_name o2c chr (n2o, off) name).1 !! n = Some c
  ∨ (resolve_name o2c chr (n2o, off) name).1 !! n = Some n.
Proof.
  intros Hn. destruct (decide (name = n)) as [->|Hne].
  - unfold resolve_name. rewrite Hn.
    destruct (o2c !! c) as [[[prev ss] es]|];
      [destruct (chr_differ prev chr)|]; simpl; try by left.
    right. apply lookup_insert_eq.
  - left. by rewrite resolve_name_other.
Qed.

Lemma resolve_fold_kept o2c chr names (n2o : gmap string string) off n c :
  n2o !! n = Some c →
  (fold_left (resolve_name o2c chr) names (n2o, off)).1 !! n = Some c
  ∨ (fold_left (resolve_name o2c chr) names (n2o, off)).1 !! n = Some n.
Proof.
  revert n2o off. induction names as [|name names IH]; intros n2o off Hn.
  - by left.
  - simpl. pose proof (resolve_name_kept o2c chr n2o off name n c Hn) as H.
    pose proof (resolve_fold_fixed o2c chr names
                  (resolve_name o2c chr (n2o, off) name).1
                  (resolve_name o2c chr (n2o, off) name).2 n) as Hfix.
    destruct (resolve_name o2c chr (n2o, off) name) as [n2o' off'].
    simpl in *. destruct H as [H|H]; [by apply IH|right; by apply Hfix].
Qed.

Lemma process_fact_kept d f n c :
  name_to_official d !! n = Some c →
  name_to_official (process_fact d f) !! n = Some c
  ∨ name_to_official (process_fact d f) !! n = Some n.
Proof. rewrite process_fact_names. apply resolve_fold_kept. Qed.

(** X8. Ingestion never removes a name from the alias map and re-points a
    name in one way only: whatever rows follow, a name that has a canonical
    name keeps it or has become its own canonical name. *)
Theorem aliases_kept_or_demoted
    (rows : list string) (d d' : dicts) (n c : string) :
  read_rows d rows = Ok d' →
  name_to_official d !! n = Some c →
  name_to_official d' !! n = Some c ∨ name_to_official d' !! n = Some n.
Proof.
  intros Hrows Hn.
  eapply (read_rows_preserves
            (λ d', name_to_official d' !! n = Some c
                   ∨ name_to_official d' !! n = Some n));
    [|by left|done].
  intros d0 f [H|H] _.
  - by apply process_fact_kept.
  - right. destruct (process_fact_kept d0 f n n H); done.
Qed.

Lemma aliases_kept_or_demoted_witness :
  name_to_official (dicts_after [auf1_row; auf1_conflict_row])
  !! "AUF1"%string = Some "HNRNPD"%string
  ∨ name_to_official (dicts_after [auf1_row; auf1_conflict_row])
    !! "AUF1"%string = Some "AUF1"%string.
Proof.
  apply (aliases_kept_or_demoted [auf1_conflict_row] (dicts_after [auf1_row])).
  - vm_compute. reflexivity.
  - vm_compute. reflexivity.
Defined.

Lemma process_fact_grows d f k c ss es :
  dicts_inv d →
  official_to_coord d !! k = Some (c, ss, es) →
  ∃ ss' es',
    official_to_coord (process_fact d f) !! k = Some (c, ss ++ ss', es ++ es')
    ∧ length ss' = length es'.
Proof.
  intros Hd Hk. rewrite process_fact_lookup by apply Hd.
  destruct (bool_decide _ && recorded d f) eqn:E.
  - apply andb_true_iff in E as [Ek Erec].
    apply bool_decide_eq_true in Ek.
    unfold recorded in Erec. rewrite Ek, Hk in Erec. apply Z.eqb_eq in Erec.
    assert (chr_no f = c) as <-.
    { destruct (chr_no f), c. simpl in *. by subst. }
    rewrite Hk. simpl. by exists [start_coord f], [end_coord f].
  - exists [], []. by rewrite !app_nil_r.
Qed.

(** X9. The coordinate store only grows while rows are read: an entry is
    never removed, its chromosome never changes, and its lists of starts
    and ends are only appended to, by as many starts as ends. At every
    point the two lists of an entry are non-empty and of the same
    length. *)
Theorem coordinates_only_grow
    (rows : list string) (d d' : dicts) (k : string)
    (c : Chromosome) (ss es : list Z) :
  ingested d →
  read_rows d rows = Ok d' →
  official_to_coord d !! k = Some (c, ss, es) →
  (∃ ss' es',
     official_to_coord d' !! k = Some (c, ss ++ ss', es ++ es')
     ∧ length ss' = length es')
  ∧ length ss = length es ∧ ss ≠ [].
Proof.
  intros Hd Hrows Hk. split.
  - eapply (read_rows_preserves
              (λ d', dicts_inv d'
                     ∧ ∃ ss' es',
                         official_to_coord d' !! k
                         = Some (c, ss ++ ss', es ++ es')
                         ∧ length ss' = length es')); [| |done].
    + intros d0 f (Hinv & ss' & es' & Hk0 & Hlen) Hwf.
      split; [by apply process_fact_inv|].
      destruct (process_fact_grows d0 f _ _ _ _ Hinv Hk0)
        as (ss'' & es'' & Hk1 & Hlen').
      exists (ss' ++ ss''), (es' ++ es'').
      rewrite !app_assoc. split; [done|]. rewrite !length_app. lia.
    + split; [by apply ingested_inv|].
      exists [], []. by rewrite !app_nil_r.
  - destruct Hd as [rows0 Hrows0].
    assert (dicts_inv d
            ∧ ∀ k c ss es, official_to_coord d !! k = Some (c, ss, es) →
                           length ss = length es) as [Hinv Hlen].
    { eapply (read_rows_preserves
                (λ d, dicts_inv d
                      ∧ ∀ k c ss es,
                          official_to_coord d !! k = Some (c, ss, es) →
                          length ss = length es)); [| |done].
      - intros d0 f [Hinv Hlen] Hwf.
        split; [by apply process_fact_inv|].
        intros k0 c0 ss0 es0. rewrite process_fact_lookup by apply Hinv.
        destruct (_ && _); [|apply Hlen].
        destruct (official_to_coord d0 !! k0) as [[[c1 ss1] es1]|] eqn:E;
          simpl; intros [= <- <- <-]; [|done].
        rewrite !length_app. simpl. by rewrite (Hlen _ _ _ _ E).
      - split; [apply no_dicts_inv|]. intros k0 c0 ss0 es0.
        simpl. by rewrite lookup_empty. }
    split; [by eapply Hlen|]. by destruct (proj1 Hinv _ _ _ _ Hk) as (_ & ? & _).
Qed.

Lemma coordinates_only_grow_witness :
  ∃ ss' es',
    official_to_coord (dicts_after [auf1_row; hnrnpd_conflict_row])
    !! "HNRNPD"%string
    = Some ({| chr_n := 4 |}, [82352498] ++ ss', [82374503] ++ es')
    ∧ length ss' = length es'.
Proof.
  apply (coordinates_only_grow [hnrnpd_conflict_row] (dicts_after [auf1_row])).
  - exists [auf1_row]. vm_compute. reflexivity.
  - vm_compute. reflexivity.
  - vm_compute. reflexivity.
Defined.

Lemma resolve_name_key o2c chr (n2o : gmap string string) off name :
  is_Some ((resolve_name o2c chr (n2o, off) name).1 !! name).
Proof.
  unfold resolve_name. destruct (n2o !! name) as [c|] eqn:Hn.
  - destruct (o2c !! c) as [[[prev ss] es]|];
      [destruct (chr_differ prev chr)|]; simpl; rewrite ?lookup_insert_eq;
      by eexists.
  - simpl. rewrite lookup_insert_eq. by eexists.
Qed.

Lemma resolve_fold_keys o2c chr names (n2o : gmap string string) off :
  (∀ n, is_Some (n2o !! n) →
        is_Some ((fold_left (resolve_name o2c chr) names (n2o, off)).1 !! n))
  ∧ (∀ n, n ∈ names →
        is_Some ((fold_left (resolve_name o2c chr) names (n2o, off)).1 !! n)).
Proof.
  assert (∀ names (n2o : gmap string string) off n,
            is_Some (n2o !! n) →
            is_Some ((fold_left (resolve_name o2c chr) names (n2o, off)).1 !! n))
    as Hmono.
  { clear. intros names n2o off n [c Hc].
    destruct (resolve_fold_kept o2c chr names n2o off n c Hc) as [-> | ->];
      by eexists. }
  split; [apply Hmono|].
  revert n2o off. induction names as [|name names IH]; intros n2o off n Hn.
  - by apply elem_of_nil in Hn.
  - simpl. pose proof (resolve_name_key o2c chr n2o off name) as Hkey.
    destruct (resolve_name o2c chr (n2o, off) name) as [n2o' off'].
    apply elem_of_cons in Hn as [->|Hn]; [by apply Hmono|by apply IH].
Qed.

Lemma process_facts_keys facts d :
  (∀ n, is_Some (name_to_official d !! n) →
        is_Some (name_to_official (fold_left process_fact facts d) !! n))
  ∧ (∀ f n, f ∈ facts → n ∈ names f →
        is_Some (name_to_official (fold_left process_fact facts d) !! n)).
Proof.
  revert d. induction facts as [|f facts IH]; intros d.
  - split; [done|]. intros f n Hf. by apply elem_of_nil in Hf.
  - simpl. destruct (IH (process_fact d f)) as [Hmono Hnames].
    pose proof (resolve_fold_keys (official_to_coord d) (chr_no f) (names f)
                  (name_to_official d) (initial_guess d f)) as [Hm Hn].
    split.
    + intros n Hk. apply Hmono. rewrite process_fact_names. by apply Hm.
    + intros g n [->|Hg]%elem_of_cons Hin; [|by eapply Hnames].
      apply Hmono. rewrite process_fact_names. by apply Hn.
Qed.

(** X10. Every name of every row that is read is a key of the alias map
    from then on, and no key is ever removed; the empty string is never a
    key. *)
Theorem row_names_become_keys (rows : list string) (d d' : dicts) :
  ingested d →
  read_rows d rows = Ok d' →
  (∀ n, is_Some (name_to_official d !! n) →
        is_Some (name_to_official d' !! n))
  ∧ (∃ facts,
       parse_rows rows = Ok facts
       ∧ ∀ f n, f ∈ facts → n ∈ names f →
                is_Some (name_to_official d' !! n))
  ∧ name_to_official d' !! EmptyString = None.
Proof.
  intros [rows0 Hrows0] Hrows.
  destruct (read_rows_facts _ _ _ Hrows) as (facts & Hfacts & _ & ->).
  destruct (process_facts_keys facts d) as [Hmono Hnames].
  split; [done|]. split; [by exists facts|].
  assert (∀ rows d d', name_to_official d !! EmptyString = None →
            read_rows d rows = Ok d' →
            name_to_official d' !! EmptyString = None) as Hempty.
  { intros rows1 d1 d1'.
    apply (read_rows_preserves_parsed
             (λ d, name_to_official d !! EmptyString = None)).
    intros d2 line f Hd2 Hline. rewrite process_fact_names.
    unfold resolve_names. rewrite resolve_fold_other; [done|].
    by eapply parse_line_no_empty_name. }
  eapply Hempty; [|done]. by eapply (Hempty rows0 no_dicts).
Qed.

Lemma row_names_become_keys_witness :
  name_to_official (dicts_after [auf1_row; auf1_conflict_row])
  !! EmptyString = None.
Proof.
  apply (row_names_become_keys [auf1_conflict_row] (dicts_after [auf1_row])).
  - exists [auf1_row]. vm_compute. reflexivity.
  - vm_compute. reflexivity.
Defined.

(** X11. A row with a gene symbol whose names are distinct and all new is
    recorded under its gene symbol: every name of the row gets the symbol as
    canonical name, the symbol gets the chromosome, the start and the end of
    the row as its entry, and nothing else changes in either dictionary. *)
Theorem fresh_row_recorded_under_symbol
    (d : dicts) (line : string) (f : GeneFact) :
  ingested d →
  parse_line line = Ok (Some f) →
  gene_name f ≠ ""%string →
  NoDup (names f) →
  Forall (λ n, name_to_official d !! n = None) (names f) →
  (∀ n, n ∈ names f →
        name_to_official (process_fact d f) !! n = Some (gene_name f))
  ∧ official_to_coord (process_fact d f) !! gene_name f
    = Some (chr_no f, [start_coord f], [end_coord f])
  ∧ (∀ k, k ≠ gene_name f →
          official_to_coord (process_fact d f) !! k
          = official_to_coord d !! k)
  ∧ (∀ n c, name_to_official d !! n = Some c →
            name_to_official (process_fact d f) !! n = Some c).
Proof.
  intros Hd Hline Hgene Hnd Hnew.
  destruct (ingested_inv d Hd) as (Hvalid & Hclosed & Hkeys).
  destruct (parse_line_wf _ _ Hline) as [_ [?|Hhead]]; [done|].
  assert (name_to_official d !! gene_name f = None) as Hg.
  { destruct (names f) as [|n ns]; [done|]. injection Hhead as ->.
    by apply Forall_cons in Hnew as [? _]. }
  assert (initial_guess d f = gene_name f) as Hinit.
  { unfold initial_guess. by rewrite Hg. }
  destruct (resolve_fold_new (official_to_coord d) (chr_no f) (names f)
              (name_to_official d) (gene_name f) Hnd Hnew)
    as (Hoff & Hall & Hkeep).
  assert (resolve_names d f
          = fold_left (resolve_name (official_to_coord d) (chr_no f))
              (names f) (name_to_official d, gene_name f)) as Hres.
  { unfold resolve_names. fold (initial_guess d f). by rewrite Hinit. }
  assert (official_of d f = gene_name f) as Hofficial.
  { unfold official_of. by rewrite Hres. }
  assert (official_to_coord d !! gene_name f = None) as Hnone.
  { destruct (official_to_coord d !! gene_name f) eqn:E; [|done].
    destruct (Hkeys (gene_name f)) as [?|?]; [by eexists|done|congruence]. }
  assert (recorded d f = true) as Hrec.
  { unfold recorded. by rewrite Hofficial, Hnone. }
  split; [|split; [|split]].
  - intros n Hn. rewrite process_fact_names, Hres. by apply Hall.
  - rewrite process_fact_lookup by done.
    rewrite Hofficial, Hrec, bool_decide_eq_true_2 by done.
    by rewrite Hnone.
  - intros k Hk. rewrite process_fact_lookup by done.
    by rewrite Hofficial, bool_decide_eq_false_2.
  - intros n c Hn. rewrite process_fact_names, Hres. by apply Hkeep.
Qed.

Lemma fresh_row_recorded_under_symbol_witness :
  official_to_coord (process_fact no_dicts (fact_of auf1_row))
  !! "HNRNPD"%string
  = Some ({| chr_n := 4 |}, [82352498], [82374503]).
Proof.
  destruct (fresh_row_recorded_under_symbol no_dicts auf1_row
              (fact_of auf1_row)) as (_ & H & _).
  - exists []. reflexivity.
  - vm_compute. reflexivity.
  - vm_compute. discriminate.
  - apply (bool_decide_unpack _). vm_compute. exact I.
  - apply (bool_decide_unpack _). vm_compute. exact I.
  - exact H.
Defined.

(** X12. One row that raises ends the whole ingestion: when the rows before
    it are read and the line raises [e], [file_to_dicts] raises [e], the
    lookup raises [e] and writes no cache, and [main], which catches
    [WrongGeneName] only, ends with [e] uncaught. The rows after it do not
    matter. *)
Theorem malformed_row_aborts
    (hdr : string) (before : list string) (line : string)
    (after : list string) (d : dicts) (e : exn) (gene : string) :
  Forall (λ l, l ≠ ""%string) before →
  read_rows no_dicts before = Ok d →
  line ≠ ""%string →
  parse_line line = Raise e →
  file_to_dicts (hdr :: before ++ line :: after) = Raise e
  ∧ hgfind None (hdr :: before ++ line :: after) gene = (Raise e, None)
  ∧ main None (hdr :: before ++ line :: after) gene = (Uncaught e, None).
Proof.
  intros Hbefore Hrows Hline Hparse.
  assert (file_to_dicts (hdr :: before ++ line :: after) = Raise e) as Hfile.
  { unfold file_to_dicts. simpl. rewrite read_rows_app by done.
    rewrite Hrows. simpl. apply String.eqb_neq in Hline as ->.
    unfold ingest_row. by rewrite Hparse. }
  assert (hgfind None (hdr :: before ++ line :: after) gene = (Raise e, None))
    as Hfind.
  { unfold hgfind. by rewrite Hfile. }
  split; [done|]. split; [done|].
  unfold main. rewrite Hfind.
  by destruct (parse_line_raises _ _ Hparse) as [-> | ->].
Qed.

Lemma malformed_row_aborts_witness :
  file_to_dicts
    [header; auf1_row;
     tsv ["abc"; "9"; "G"; ""; ""; ""; "1"]%string; auf1_conflict_row]
  = Raise ValueError.
Proof.
  refine (proj1 (malformed_row_aborts header [auf1_row]
                   (tsv ["abc"; "9"; "G"; ""; ""; ""; "1"]%string)
                   [auf1_conflict_row] (dicts_after [auf1_row])
                   ValueError ""%string _ _ _ _)).
  - apply (bool_decide_unpack _). vm_compute. exact I.
  - vm_compute. reflexivity.
  - vm_compute. discriminate.
  - vm_compute. reflexivity.
Defined.

(** X14. When every row that is read has its start at or before its end,
    so has every entry of the finished coordinate map. *)
Theorem span_is_ordered
    (bio_mart_file : list string) (facts : list GeneFact)
    (n2o : gmap string string) (o2c : gmap string (Chromosome * Z * Z)) :
  file_to_dicts bio_mart_file = Ok (n2o, o2c) →
  parse_rows (tail bio_mart_file) = Ok facts →
  Forall (λ f, start_coord f ≤ end_coord f) facts →
  ∀ k c lo hi, o2c !! k = Some (c, lo, hi) → lo ≤ hi.
Proof.
  unfold file_to_dicts. intros Hfile Hfacts Hord k c lo hi Hk.
  destruct (read_rows no_dicts (tail bio_mart_file)) as [d|] eqn:Hrows;
    [|done].
  simpl in Hfile.
  destruct (finalize (official_to_coord d)) as [m|] eqn:Hfin;
    [|done].
  simpl in Hfile. injection Hfile as <- <-.
  destruct (read_rows_facts _ _ _ Hrows) as (facts' & Hfacts' & Hwf & ->).
  assert (facts' = facts) as -> by congruence.
  pose proof (process_facts_lookup facts no_dicts k no_dicts_inv Hwf) as Hd.
  simpl in Hd. rewrite lookup_empty in Hd.
  assert (∀ g, g ∈ aggregated_under k no_dicts facts →
               start_coord g ≤ end_coord g) as Hagg.
  { clear -Hord. generalize no_dicts.
    induction Hord as [|f facts Hf _ IH]; intros d g; simpl.
    - by intros ?%elem_of_nil.
    - intros [Hg|Hg]%elem_of_app; [|by eapply IH].
      destruct (_ && _); [|by apply elem_of_nil in Hg].
      by apply list_elem_of_singleton in Hg as ->. }
  destruct (finalize_lookup _ _ Hfin k) as [[_ E]|(e & v & E & Hcol & Hm)];
    [congruence|].
  assert (v = (c, lo, hi)) as -> by congruence.
  destruct (aggregated_under k no_dicts facts) as [|g rest] eqn:Hg.
  { simpl in Hd. congruence. }
  rewrite add_facts_none in Hd.
  assert (e = (default (chr_no g) (chr_no <$> last rest),
               start_coord <$> g :: rest, end_coord <$> g :: rest))
    as -> by congruence.
  destruct (collapse_ok (default (chr_no g) (chr_no <$> last rest))
              (start_coord <$> g :: rest) (end_coord <$> g :: rest))
    as (lo' & hi' & Hcol' & [_ Hlo] & [_ Hhi]); [done..|].
  assert (lo' = lo ∧ hi' = hi) as [-> ->] by (split; congruence).
  assert (lo ≤ start_coord g) by (apply Hlo; by left).
  assert (end_coord g ≤ hi) by (apply Hhi; by left).
  assert (start_coord g ≤ end_coord g) by (apply Hagg; by left).
  lia.
Qed.

Lemma span_is_ordered_witness : 21209136 ≤ 21269494.
Proof.
  apply (span_is_ordered hnrnpc_table (facts_after (tail hnrnpc_table))
           (dicts_after_file hnrnpc_table).1
           (dicts_after_file hnrnpc_table).2)
    with (k := "HNRNPC"%string) (c := {| chr_n := 14 |}).
  - vm_compute. reflexivity.
  - vm_compute. reflexivity.
  - apply (bool_decide_unpack _). vm_compute. exact I.
  - vm_compute. reflexivity.
Defined.

(** ** More on the lookup and the program *)



(** X15. The names are stored as the table spells them and the query is
    upper-cased, so a key of the alias map that holds a lower-case letter is
    never reached: no lookup changes when such a key is removed. *)
Theorem lower_case_key_unreachable
    (n2o : gmap string string) (o2c : gmap string (Chromosome * Z * Z))
    (k gene : string) :
  Py.upper k ≠ k →
  lookup (delete k n2o, o2c) gene = lookup (n2o, o2c) gene.
Proof.
  intros Hk. unfold lookup. rewrite lookup_delete_ne; [done|].
  intros ->. by rewrite upper_idemp in Hk.
Qed.

Lemma lower_case_key_unreachable_witness :
  lookup (delete "C1orf112"%string {["C1orf112"%string := "C1orf112"%string]},
          {["C1orf112"%string := ({| chr_n := 1 |}, 1, 2)]}) "C1orf112"
  = lookup ({["C1orf112"%string := "C1orf112"%string]},
            {["C1orf112"%string := ({| chr_n := 1 |}, 1, 2)]}) "C1orf112".
Proof.
  apply lower_case_key_unreachable. vm_compute. discriminate.
Defined.






(** C4. The code on [late_known_table]: the second row (A, B, G1) on
    chromosome 1 meets the known name G1 after the new names A and B. The
    row is recorded under G1, but A and B keep the running name of the
    moment they were met: B maps to A, A maps to itself, and A has no
    coordinates. The names of the row are not all linked to G1, the alias B
    maps to a name that is neither B nor a key of the coordinate map, and
    the lookups of A and of B fail. *)
Lemma late_known_name_orphans_aliases :
  match file_to_dicts late_known_table with
  | Ok (name_to_official, official_to_coord) =>
      name_to_official !! "G1"%string = Some "G1"%string
      ∧ name_to_official !! "A"%string = Some "A"%string
      ∧ name_to_official !! "B"%string = Some "A"%string
      ∧ official_to_coord !! "A"%string = None
      ∧ official_to_coord !! "G1"%string
        = Some ({| chr_n := 1 |}, 10, 40)
  | Raise _ => False
  end
  ∧ (hgfind None late_known_table "A").1
    = Raise (WrongGeneName not_recognized "A")
  ∧ (hgfind None late_known_table "B").1
    = Raise (WrongGeneName not_recognized "B").
Proof. vm_compute. repeat split; reflexivity. Qed.
